(** * LSB image steganography: a shallow embedding of the codec

    The development embeds the steganography classes of the repository:

    - [Stag]  follows [src/AIbot/stag.py], class [ImageSteganography]
      (the class body of [src/AIbot/hex1.py] is the same code with other
      method names and messages);
    - [RGB]   follows [src/sdfbhzdf.py], class [RGBImageSteganography].

    Python values are represented as follows.
    - A [str] is the list of its code points ([N]); [ord] is the identity
      and [chr] is partial (it raises above 0x10FFFF).
    - The strings of '0'/'1' characters that the code builds with
      [format(_, '08b')] and [str(pixel & 1)] are lists of [bool]
      ([true] stands for '1').
    - A [numpy] array of dtype [uint8] is its shape together with its
      flattened (raveled, C-order) list of samples in [Z].
    - Exceptions are an error monad; the file system and the standard
      output are threaded through as an explicit [world]. *)

From Stdlib Require Import ZArith NArith Lia Ascii String.
From stdpp Require Import base option list gmap strings.

Open Scope Z_scope.
Open Scope nat_scope.

(** ** Python strings and bit strings *)

Abbreviation codepoint := N.
Abbreviation str := (list N).
Abbreviation bits := (list bool).

(** A string literal of the source, as a [str]. *)
Definition lit (s : string) : str :=
  map N_of_ascii (list_ascii_of_string s).

(** ** Exceptions *)

(** The messages the code formats; the numbers and paths they interpolate
    are kept as arguments. *)
Inductive msg :=
| MFileDoesNotExist (path : string)
| MCouldNotLoad (path : string)
| MImageTooSmall (required available : nat)
| MFailedToSave (path : string)
| MInvalidLiteral
| MChrOutOfRange
| MBroadcast
| MUnpack
| MIndexOutOfBounds
| MIo.

Inductive exn :=
| ValueError (m : msg)
| IndexError (m : msg)
| OSError (m : msg).

Definition exn_msg (e : exn) : msg :=
  match e with ValueError m | IndexError m | OSError m => m end.

Inductive result (A : Type) :=
| Ok (a : A)
| Raise (e : exn).
Arguments Ok {A} a.
Arguments Raise {A} e.

#[global] Instance result_ret : MRet result := fun A a => Ok a.
#[global] Instance result_bind : MBind result := fun A B f m =>
  match m with Ok a => f a | Raise e => Raise e end.
#[global] Instance result_fmap : FMap result := fun A B f m =>
  match m with Ok a => Ok (f a) | Raise e => Raise e end.

Definition is_ok {A} (r : result A) : bool :=
  match r with Ok _ => true | Raise _ => false end.

(** ** Builtins used by the codec *)

Definition ord (c : codepoint) : N := c.

(** [chr(n)]: [ValueError] outside [range(0x110000)]. *)
Definition chr (n : N) : result codepoint :=
  if (n <=? 1114111)%N then Ok n else Raise (ValueError MChrOutOfRange).

(** Binary digits of a positive number, least significant first. *)
Fixpoint pos_digits (p : positive) : bits :=
  match p with
  | xH => [true]
  | xO q => false :: pos_digits q
  | xI q => true :: pos_digits q
  end.

(** [format(n, 'b')]: the binary digits, most significant first. *)
Definition bin (n : N) : bits :=
  match n with
  | N0 => [false]
  | Npos p => rev (pos_digits p)
  end.

(** [format(n, '08b')]: zero-padded on the left to a minimum width of 8;
    a longer expansion is kept whole. *)
Definition format_08b (n : N) : bits :=
  replicate (8 - length (bin n)) false ++ bin n.

(** [int(s, 2)] on a string of binary digits: [ValueError] on the empty
    string. *)
Definition int2_digits (s : bits) : N :=
  fold_left (fun acc (b : bool) => (2 * acc + N.b2n b)%N) s 0%N.

Definition int2 (s : bits) : result N :=
  match s with
  | [] => Raise (ValueError MInvalidLiteral)
  | _ => Ok (int2_digits s)
  end.

(** [l[i:j]] for [0 <= i] and [0 <= j]: slicing clamps to the list. *)
Definition slice {A} (l : list A) (i j : nat) : list A :=
  take (j - i) (drop i l).

(** [range(start, stop, step)] for a positive [step]. *)
Definition range_step (start stop step : nat) : list nat :=
  map (fun k => start + step * k) (seq 0 ((stop - start + (step - 1)) / step)).

(** [s.find(sub)]: the lowest index where [sub] occurs in [s], or -1. *)
Fixpoint starts_with (sub s : str) : bool :=
  match sub, s with
  | [], _ => true
  | _ :: _, [] => false
  | a :: sub', b :: s' => (a =? b)%N && starts_with sub' s'
  end.

Fixpoint find_from (s sub : str) (i : Z) : Z :=
  if starts_with sub s then i
  else match s with
       | [] => (-1)%Z
       | _ :: s' => find_from s' sub (i + 1)%Z
       end.

Definition find (s sub : str) : Z := find_from s sub 0%Z.

(** ** The bit codec shared by the classes *)

(** [''.join(format(ord(char), '08b') for char in text)] *)
Definition string_to_binary (text : str) : bits :=
  flat_map (fun char => format_08b (ord char)) text.

(** [binary_to_string] of [stag.py] and [hex1.py]. *)
Definition binary_to_string (binary : bits) : result str :=
  let binary := slice binary 0 (length binary - length binary mod 8) in
  mapM (fun i =>
          let byte := slice binary i (i + 8) in
          n ← int2 byte; chr n)
       (range_step 0 (length binary) 8).

(** ** Arrays, files and output *)

(** A [numpy.ndarray] of dtype [uint8]: its shape and its samples in
    raster (C) order, as [ravel()] lists them. *)
Record ndarray := { shape : list nat; ravel : list Z }.

(** [a.size]: the product of the dimensions. *)
Definition size (a : ndarray) : nat := foldr Nat.mul 1 (shape a).

Definition uint8 (v : Z) : Prop := (0 ≤ v < 256)%Z.

(** What every array handed out by the image libraries satisfies. *)
Definition wf_ndarray (a : ndarray) : Prop :=
  length (ravel a) = size a ∧ Forall uint8 (ravel a).

(** The low-order bit of every sample, ['0'] or ['1']:
    [''.join(str(pixel & 1) for pixel in flat)]. *)
Definition lsb (pixel : Z) : bool := bool_decide (Z.land pixel 1 = 1%Z).
Definition lsbs (flat : list Z) : bits := map lsb flat.

(** [(sample & 0xFE) | bit] *)
Definition set_lsb (sample bit : Z) : Z := Z.lor (Z.land sample 254) bit.

(** Lines written to the standard output. *)
Inductive line :=
| PTextHidden (path : string)
| PHiddenChars (n : nat)
| PErrorHiding (m : msg)
| PErrorExtracting (m : msg)
| LFileNotFound (path : string)
| LUnsupportedType
| LValidImage (path : string)
| LErrorValidating (m : msg)
| LMessageTooLong (needs capacity : nat)
| LHidden (path : string) (chars nbits : nat)
| LErrorHidingText (m : msg)
| LExtracted (message : str)
| LNoHiddenMessage.

(** The file system (path to file contents) and the output so far. *)
Record world (blob : Type) := World {
  files : gmap string blob;
  stdout : list line
}.
Arguments World {blob} _ _.
Arguments files {blob} _.
Arguments stdout {blob} _.

(** Code with effects: the world goes in and comes out, an exception may
    be raised on the way. *)
Definition io (blob A : Type) : Type := world blob → result A * world blob.

Definition io_ret {blob A} (a : A) : io blob A := fun w => (Ok a, w).
Definition io_bind {blob A B} (m : io blob A) (f : A → io blob B) : io blob B :=
  fun w => match m w with
           | (Ok a, w') => f a w'
           | (Raise e, w') => (Raise e, w')
           end.
Definition raise {blob A} (e : exn) : io blob A := fun w => (Raise e, w).
Definition lift {blob A} (r : result A) : io blob A := fun w => (r, w).

(** [try: body except Exception as e: handler] *)
Definition try_except {blob A} (body : io blob A) (handler : exn → io blob A)
  : io blob A :=
  fun w => match body w with
           | (Ok a, w') => (Ok a, w')
           | (Raise e, w') => handler e w'
           end.

Definition print {blob} (l : line) : io blob unit :=
  fun w => (Ok tt, World (files w) (stdout w ++ [l])).

(** [os.path.isfile(path)] *)
Definition isfile {blob} (path : string) : io blob bool :=
  fun w => (Ok (bool_decide (is_Some (files w !! path))), w).

Definition read_file {blob} (path : string) : io blob (option blob) :=
  fun w => (Ok (files w !! path), w).

Definition write_file {blob} (path : string) (b : blob) : io blob unit :=
  fun w => (Ok tt, World (<[path := b]> (files w)) (stdout w)).

#[global] Instance io_mret {blob} : MRet (io blob) := @io_ret blob.
#[global] Instance io_mbind {blob} : MBind (io blob) :=
  fun A B f m => io_bind m f.

(** [s.lower()] and [s.endswith(suffix)] on paths. *)
Definition lower_ascii (a : ascii) : ascii :=
  let n := nat_of_ascii a in
  if (65 <=? n) && (n <=? 90) then ascii_of_nat (n + 32) else a.

Fixpoint lower (s : string) : string :=
  match s with
  | EmptyString => EmptyString
  | String a s' => String (lower_ascii a) (lower s')
  end.

Definition endswith (s suffix : string) : bool :=
  (String.length suffix <=? String.length s)
  && String.eqb (substring (String.length s - String.length suffix)
                           (String.length suffix) s) suffix.

(** [s.endswith((suffix1, suffix2, ...))] *)
Definition endswith_any (s : string) (suffixes : list string) : bool :=
  existsb (endswith s) suffixes.

(** ** [stag.py]: class [ImageSteganography] *)

Module Stag.

Definition delimiter : str := lit "###END_OF_HIDDEN_DATA###".

Definition no_hidden_text : str :=
  lit "No hidden text found or delimiter not detected".

(** Lines 36-47 of [hide_text_in_image]: from the loaded image to the
    encoded copy. *)
Definition embed (img : ndarray) (text_to_hide : str) : result ndarray :=
  let text_with_delimiter := text_to_hide ++ delimiter in
  let binary_data := string_to_binary text_with_delimiter in
  let data_length := length binary_data in
  let total_pixels := size img in
  if total_pixels <? data_length then
    Raise (ValueError (MImageTooSmall data_length total_pixels))
  else
    let flat_img := ravel img in          (* of the copy [encoded_img] *)
    let binary_array := map Z.b2z binary_data in
    let target := take data_length flat_img in
    (* numpy refuses the operation when the operands differ in length;
       the check above excludes it for an array with [size] samples *)
    if bool_decide (length target = length binary_array) then
      Ok {| shape := shape img;
            ravel := zip_with set_lsb target binary_array
                     ++ drop data_length flat_img |}
    else Raise (ValueError MBroadcast).

(** Lines 70-77 of [extract_text_from_image]. *)
Definition extract (img : ndarray) : result str :=
  let binary_data := lsbs (ravel img) in
  extracted_text ← binary_to_string binary_data;
  let delimiter_pos := find extracted_text delimiter in
  if bool_decide (delimiter_pos ≠ (-1)%Z) then
    Ok (slice extracted_text 0 (Z.to_nat delimiter_pos))
  else Ok no_hidden_text.

Section IO.
(** The image library: [cv2.imread] gives [None] for contents it cannot
    decode; [cv2_imwrite] stands for [os.makedirs] followed by
    [cv2.imwrite], and gives the contents written, or [None] when the
    write fails. The file store holds regular files only: a directory
    that [os.makedirs] created is not in it, before a successful write or
    before a failed one. After a failed save the model leaves the store
    as it was; the statements about this method read the files only after
    a check that precedes the save or after a successful save. *)
Context {blob : Type}.
Variable cv2_imread : blob → option ndarray.
Variable cv2_imwrite : string → ndarray → option blob.

Definition load (image_path : string) : io blob ndarray :=
  present ← isfile image_path;
  if negb present then raise (ValueError (MFileDoesNotExist image_path))
  else
    contents ← read_file image_path;
    match contents ≫= cv2_imread with
    | None => raise (ValueError (MCouldNotLoad image_path))
    | Some img => io_ret img
    end.

Definition hide_text_in_image (image_path : string) (text_to_hide : str)
    (output_path : string) : io blob bool :=
  try_except
    (img ← load image_path;
     encoded_img ← lift (embed img text_to_hide);
     match cv2_imwrite output_path encoded_img with
     | None => raise (ValueError (MFailedToSave output_path))
     | Some contents =>
         write_file output_path contents;;
         print (PTextHidden output_path);;
         print (PHiddenChars (length text_to_hide));;
         io_ret true
     end)
    (fun e => print (PErrorHiding (exn_msg e));; io_ret false).

Definition extract_text_from_image (image_path : string)
    : io blob (option str) :=
  try_except
    (img ← load image_path;
     text ← lift (extract img);
     io_ret (Some text))
    (fun e => print (PErrorExtracting (exn_msg e));; io_ret None).
End IO.

End Stag.

(** ** Values of the dictionary [get_image_info] returns *)

(** What [Image.open(path)] exposes of an image file: its size, and the
    [format] and [mode] attributes. *)
Record pil_image := {
  im_width : nat;
  im_height : nat;
  im_format : option string;
  im_mode : string
}.

(** The values stored under the keys of the dictionary: integers, strings,
    [None], and the text of an exception. *)
Inductive pyval :=
| VInt (n : nat)
| VStr (s : string)
| VNone
| VExn (m : msg).

(** ** [sdfbhzdf.py]: class [RGBImageSteganography] *)

Module RGB.

Definition delimiter : str := lit "###END###".

Definition no_hidden_message : str := lit "No hidden message found.".

(** The loop of lines 53-54, over the indices [range(len(binary_text))];
    indexing past the end of either sequence raises [IndexError]. *)
Fixpoint embed_loop (binary_text : bits) (indices : list nat)
    (flat_pixels : list Z) : result (list Z) :=
  match indices with
  | [] => Ok flat_pixels
  | i :: rest =>
      match flat_pixels !! i, binary_text !! i with
      | Some sample, Some bit =>
          embed_loop binary_text rest
            (<[i := set_lsb sample (Z.b2z bit)]> flat_pixels)
      | _, _ => Raise (IndexError MIndexOutOfBounds)
      end
  end.

(** How lines 45-54 of [hide_text_in_image] end: in the early return of
    the capacity check, or with the pixel array written. *)
Inductive embedded :=
| TooLong (needs capacity : nat)
| Written (pixels : ndarray).

Definition embed (pixels : ndarray) (text : str) : result embedded :=
  match shape pixels with
  | [height; width; _] =>
      let delimited_text := text ++ delimiter in
      let binary_text := string_to_binary delimited_text in
      let max_bits := width * height * 3 in
      if max_bits <? length binary_text then
        Ok (TooLong (length binary_text) max_bits)
      else
        flat_pixels ← embed_loop binary_text (seq 0 (length binary_text))
                                 (ravel pixels);
        Ok (Written {| shape := shape pixels; ravel := flat_pixels |})
  | _ => Raise (ValueError MUnpack)
  end.

(** The loop of lines 72-77, over the indices
    [range(0, len(binary_data), 8)]; it stops at the first index where the
    delimiter's bits start. *)
Fixpoint extract_loop (binary_data delimiter_bits : bits)
    (indices : list nat) (message : str) : result str :=
  match indices with
  | [] => Ok message
  | i :: rest =>
      let byte := slice binary_data i (i + 8) in
      if (i + length delimiter_bits <=? length binary_data)
         && bool_decide (slice binary_data i (i + length delimiter_bits)
                         = delimiter_bits)
      then Ok message
      else
        char_code ← int2 byte;
        c ← chr char_code;
        extract_loop binary_data delimiter_bits rest (message ++ [c])
  end.

(** Lines 68-77 of [extract_text_from_image]: the scan, up to the test on
    [message]. *)
Definition scan (pixels : ndarray) : result str :=
  let binary_data := lsbs (ravel pixels) in
  let delimiter_bits := string_to_binary delimiter in
  extract_loop binary_data delimiter_bits
               (range_step 0 (length binary_data) 8) [].

Definition extract (pixels : ndarray) : result str :=
  message ← scan pixels;
  match message with
  | _ :: _ => Ok message
  | [] => Ok no_hidden_message
  end.

(** What [extract_text_from_image] returns: a string in every case; the
    two it formats from a path or an exception are kept apart. *)
Inductive reply :=
| Text (s : str)
| InvalidImageFile (path : string)
| ErrorExtractingText (m : msg).

Section IO.
(** The image library: [pil_verify] is [Image.open(path)] followed by
    [verify()]; [pil_open_rgb] is [np.array(Image.open(path)
    .convert("RGB"))]; [pil_save] is [Image.fromarray(pixels, "RGB")
    .save(path)]. [None] (or [false]) stands for a raised exception.
    After a [save] that raised the model leaves the file store as it was,
    whereas the library may have opened, and so emptied, the output file
    before raising; the statements about [hide_text_in_image] read the
    files only after a check that precedes the save or after a successful
    save. The speech engine is left out, and with it the lines
    [extract_text_from_image] logs about speaking: every call to it is
    wrapped in its own [try]/[except] and changes neither the result nor
    the files, and no statement reads the output of that method. *)
Context {blob : Type}.
Variable pil_verify : blob → bool.
Variable pil_open_rgb : blob → option ndarray.
Variable pil_save : string → ndarray → option blob.
Variable verbose : bool.

Definition _log (message : line) : io blob unit :=
  if verbose then print message else io_ret tt.

Definition validate_image (image_path : string) : io blob bool :=
  try_except
    (present ← isfile image_path;
     if negb present then
       _log (LFileNotFound image_path);; io_ret false
     else if negb (endswith_any (lower image_path)
                                [".png"; ".jpg"; ".jpeg"]) then
       _log LUnsupportedType;; io_ret false
     else
       contents ← read_file image_path;
       match contents with
       | Some b =>
           if pil_verify b then
             _log (LValidImage image_path);; io_ret true
           else raise (OSError MIo)
       | None => raise (OSError MIo)
       end)
    (fun e => _log (LErrorValidating (exn_msg e));; io_ret false).

Definition open_rgb (image_path : string) : io blob ndarray :=
  contents ← read_file image_path;
  match contents ≫= pil_open_rgb with
  | Some pixels => io_ret pixels
  | None => raise (OSError MIo)
  end.

Definition hide_text_in_image (image_path : string) (text : str)
    (output_path : string) : io blob bool :=
  try_except
    (valid ← validate_image image_path;
     if negb valid then io_ret false
     else
       pixels ← open_rgb image_path;
       outcome ← lift (embed pixels text);
       match outcome with
       | TooLong needs capacity =>
           _log (LMessageTooLong needs capacity);; io_ret false
       | Written pixels' =>
           match pil_save output_path pixels' with
           | None => raise (OSError MIo)
           | Some contents =>
               write_file output_path contents;;
               _log (LHidden output_path (length text)
                       (length (string_to_binary (text ++ delimiter))));;
               io_ret true
           end
       end)
    (fun e => _log (LErrorHidingText (exn_msg e));; io_ret false).

Definition extract_text_from_image (image_path : string) : io blob reply :=
  try_except
    (valid ← validate_image image_path;
     if negb valid then io_ret (InvalidImageFile image_path)
     else
       pixels ← open_rgb image_path;
       message ← lift (scan pixels);
       match message with
       | _ :: _ => _log (LExtracted message);; io_ret (Text message)
       | [] => _log LNoHiddenMessage;; io_ret (Text no_hidden_message)
       end)
    (fun e => io_ret (ErrorExtractingText (exn_msg e))).

(** [pil_open] is [Image.open(path)], read for its attributes only. *)
Variable pil_open : blob → option pil_image.

Definition get_image_info (image_path : string)
    : io blob (gmap string pyval) :=
  try_except
    (valid ← validate_image image_path;
     if negb valid then
       io_ret {[ "error" :=
                   VStr (String.append "Invalid image file '"
                           (String.append image_path "'")) ]}
     else
       contents ← read_file image_path;
       match contents ≫= pil_open with
       | None => raise (OSError MIo)
       | Some img =>
           let total_pixels := im_width img * im_height img in
           let max_bits := total_pixels * 3 in
           io_ret (<["width" := VInt (im_width img)]>
                   (<["height" := VInt (im_height img)]>
                   (<["total_pixels" := VInt total_pixels]>
                   (<["max_bits" := VInt max_bits]>
                   (<["max_characters" := VInt (max_bits / 8)]>
                   (<["format" := match im_format img with
                                  | Some f => VStr f
                                  | None => VNone
                                  end]>
                   (<["mode" := VStr (im_mode img)]> ∅)))))))
       end)
    (fun e => io_ret {[ "error" := VExn (exn_msg e) ]}).
End IO.

End RGB.

(** ** [hex1.py]: class [ImageSteganography] and [SteganographyGUI] *)

Module Hex1.

Definition delimiter : str := lit "###END_OF_HIDDEN_DATA###".

Definition no_hidden_data : str :=
  lit "No hidden data found or delimiter not detected".

Definition no_hidden_code : str :=
  lit "No hidden code found or extraction failed.".

(** Lines 36-47 of [hide_code_in_image]. *)
Definition embed (img : ndarray) (code_to_hide : str) : result ndarray :=
  let code_with_delimiter := code_to_hide ++ delimiter in
  let binary_data := string_to_binary code_with_delimiter in
  let data_length := length binary_data in
  let total_pixels := size img in
  if total_pixels <? data_length then
    Raise (ValueError (MImageTooSmall data_length total_pixels))
  else
    let flat_img := ravel img in
    let binary_array := map Z.b2z binary_data in
    let target := take data_length flat_img in
    if bool_decide (length target = length binary_array) then
      Ok {| shape := shape img;
            ravel := zip_with set_lsb target binary_array
                     ++ drop data_length flat_img |}
    else Raise (ValueError MBroadcast).

(** Lines 70-77 of [extract_code_from_image]. *)
Definition extract (img : ndarray) : result str :=
  let binary_data := lsbs (ravel img) in
  extracted_text ← binary_to_string binary_data;
  let delimiter_pos := find extracted_text delimiter in
  if bool_decide (delimiter_pos ≠ (-1)%Z) then
    Ok (slice extracted_text 0 (Z.to_nat delimiter_pos))
  else Ok no_hidden_data.

(** What [select_image] writes into the status label. *)
Inductive status :=
| StatusOther
| NoImageSelected
| ErrorLoadingImage
| CodeExtracted
| NoExecutableCode.

(** The window: the picture shown, the contents of the text box, whether
    the "Execute Code" button is enabled, the status label, the attribute
    [extracted_code], and the error lines printed so far. *)
Record gui (blob : Type) := Gui {
  image_label : option blob;
  code_text : str;
  execute_button : bool;
  status_label : status;
  extracted_code : option str;
  console : list msg
}.
Arguments Gui {blob} _ _ _ _ _ _.
Arguments image_label {blob} _.
Arguments code_text {blob} _.
Arguments execute_button {blob} _.
Arguments status_label {blob} _.
Arguments extracted_code {blob} _.
Arguments console {blob} _.

Section GUI.
(** [cv2.imread] as in [stag.py]; [photo] is [Image.open], [resize] and
    [ImageTk.PhotoImage] in a row, [None] when one of them raises. The
    files are only read. *)
Context {blob : Type}.
Variable cv2_imread : blob → option ndarray.
Variable photo : blob → option blob.
Variable fs : gmap string blob.

(** [extract_code_from_image]: the text, or [None] after printing
    "Error extracting code: ..." when the [try] block raised. *)
Definition extract_code_from_image (image_path : string)
    : option str * list msg :=
  let body : result str :=
    match fs !! image_path with
    | None => Raise (ValueError (MFileDoesNotExist image_path))
    | Some contents =>
        match cv2_imread contents with
        | None => Raise (ValueError (MCouldNotLoad image_path))
        | Some img => extract img
        end
    end in
  match body with
  | Ok text => (Some text, [])
  | Raise e => (None, [exn_msg e])
  end.

(** [select_image], given the path the file dialog returned (empty when
    the dialog was cancelled). *)
Definition select_image (image_path : string) (g : gui blob) : gui blob :=
  if String.eqb image_path "" then
    Gui (image_label g) (code_text g) (execute_button g)
        NoImageSelected (extracted_code g) (console g)
  else
    match fs !! image_path ≫= photo with
    | None =>
        Gui (image_label g) (code_text g) (execute_button g)
            ErrorLoadingImage (extracted_code g) (console g)
    | Some img_tk =>
        let (code, printed) := extract_code_from_image image_path in
        match code with
        | Some (c :: rest) =>
            if bool_decide (c :: rest ≠ no_hidden_data) then
              Gui (Some img_tk) (c :: rest) true CodeExtracted code
                  (console g ++ printed)
            else
              Gui (Some img_tk) no_hidden_code false NoExecutableCode code
                  (console g ++ printed)
        | _ =>
            Gui (Some img_tk) no_hidden_code false NoExecutableCode code
                (console g ++ printed)
        end
    end.
End GUI.

End Hex1.

(** ** Reference functions used in the statements *)

(** The character a complete group of eight bits stands for, group after
    group; fewer than eight bits at the end give nothing. *)
Fixpoint decode (b : bits) : str :=
  match b with
  | b0 :: b1 :: b2 :: b3 :: b4 :: b5 :: b6 :: b7 :: rest =>
      int2_digits [b0; b1; b2; b3; b4; b5; b6; b7] :: decode rest
  | _ => []
  end.

(** The eight bits of a byte, most significant first. *)
Definition msb8 (c : N) : bits :=
  map (fun k => N.testbit c (N.of_nat (7 - k))) (seq 0 8).

(** A payload the codec supports: every code point fits in a byte. *)
Definition single_byte (text : str) : Prop :=
  Forall (fun c => (c < 256)%N) text.

(** The carrier after embedding: [flat[:n] = (flat[:n] & 0xFE) | bits]. *)
Definition overwrite (flat : list Z) (bs : bits) : list Z :=
  zip_with set_lsb (take (length bs) flat) (Z.b2z <$> bs)
  ++ drop (length bs) flat.

(** [s] has no occurrence of [sub] starting before index [k]. *)
Definition none_before (sub s : str) (k : nat) : Prop :=
  ∀ j, j < k → starts_with sub (drop j s) = false.

(** An array as [np.array(img.convert("RGB"))] gives it. *)
Definition wf_rgb (pixels : ndarray) : Prop :=
  wf_ndarray pixels ∧ ∃ height width, shape pixels = [height; width; 3].

(** Sample by sample, what the embedder's formula asks of the first
    [length bs] samples: the written value, its low-order bit, and bits 1
    to 7. *)
Definition writes_low_bits (carrier out : list Z) (bs : bits) : Prop :=
  ∀ i sample bit, carrier !! i = Some sample → bs !! i = Some bit →
    ∃ v, out !! i = Some v
         ∧ v = Z.lor (Z.land sample 254) (Z.b2z bit)
         ∧ Z.testbit v 0 = bit
         ∧ ∀ k, (1 ≤ k < 8)%Z → Z.testbit v k = Z.testbit sample k.

(** The samples from index [n] on are the carrier's own. *)
Definition keeps_rest (carrier out : list Z) (n : nat) : Prop :=
  ∀ i, n ≤ i → out !! i = carrier !! i.

(** The encoder as the specification words it: an error for a code point
    above 255, eight bits per character otherwise. *)
Inductive encoded :=
| Bits (b : bits)
| EncodingError.

Definition spec_encode (text : str) : encoded :=
  if forallb (fun c => (c <=? 255)%N) text
  then Bits (flat_map msb8 text)
  else EncodingError.

(** The delimiter's bits occur nowhere in the low-order bits of a
    carrier, at no character boundary. *)
Definition no_delimiter (delimiter : str) (flat : list Z) : Prop :=
  ∀ k, slice (lsbs flat) (8 * k)
             (8 * k + length (string_to_binary delimiter))
       ≠ string_to_binary delimiter.

(** What [_log] prints of the lines handed to it. *)
Definition logged (verbose : bool) (ls : list line) : list line :=
  if verbose then ls else [].

(** What [validate_image] decides: the file exists, its name ends in a
    supported extension whatever the case, and the image verifies. *)
Definition valid_image {blob : Type} (pil_verify : blob → bool)
    (fs : gmap string blob) (path : string) : bool :=
  match fs !! path with
  | Some contents =>
      endswith_any (lower path) [".png"; ".jpg"; ".jpeg"]
      && pil_verify contents
  | None => false
  end.

(** * Properties *)

Example string_to_binary_A : string_to_binary (lit "A") =
  [false; true; false; false; false; false; false; true].
Proof. reflexivity. Qed.

Example binary_to_string_A :
  binary_to_string [false; true; false; false; false; false; false; true; true; true]
  = Ok (lit "A").
Proof. reflexivity. Qed.

(** ** Binary digits *)

Lemma int2_digits_snoc (l : bits) (b : bool) :
  int2_digits (l ++ [b]) = (2 * int2_digits l + N.b2n b)%N.
Proof. unfold int2_digits. by rewrite fold_left_app. Qed.

Lemma int2_digits_pos (p : positive) :
  int2_digits (rev (pos_digits p)) = Npos p.
Proof.
  induction p as [q IH|q IH|]; simpl; [| |reflexivity];
    rewrite int2_digits_snoc, IH; simpl; lia.
Qed.

Lemma int2_digits_bin (n : N) : int2_digits (bin n) = n.
Proof. destruct n; [reflexivity|apply int2_digits_pos]. Qed.

Lemma int2_digits_zeros (k : nat) (l : bits) :
  int2_digits (replicate k false ++ l) = int2_digits l.
Proof.
  unfold int2_digits. rewrite fold_left_app. f_equal.
  induction k as [|k IH]; [reflexivity|].
  rewrite replicate_S_end, fold_left_app, IH. reflexivity.
Qed.

Lemma int2_digits_format (n : N) : int2_digits (format_08b n) = n.
Proof. unfold format_08b. by rewrite int2_digits_zeros, int2_digits_bin. Qed.

Lemma pos_digits_bounds (p : positive) :
  (2 ^ N.of_nat (length (pos_digits p) - 1) ≤ Npos p
   < 2 ^ N.of_nat (length (pos_digits p)))%N.
Proof.
  induction p as [q IH|q IH|]; simpl length.
  - assert (0 < length (pos_digits q)) by (destruct q; simpl; lia).
    replace (S (length (pos_digits q)) - 1)
      with (S (length (pos_digits q) - 1)) by lia.
    rewrite !Nat2N.inj_succ, !N.pow_succ_r'. lia.
  - assert (0 < length (pos_digits q)) by (destruct q; simpl; lia).
    replace (S (length (pos_digits q)) - 1)
      with (S (length (pos_digits q) - 1)) by lia.
    rewrite !Nat2N.inj_succ, !N.pow_succ_r'. lia.
  - simpl. lia.
Qed.

Lemma bin_length_byte (n : N) : (n < 256)%N → length (bin n) ≤ 8.
Proof.
  destruct n as [|p]; simpl; [lia|]. intros Hp.
  rewrite length_rev.
  destruct (pos_digits_bounds p) as [Hlo _].
  destruct (decide (length (pos_digits p) ≤ 8)) as [|Hgt]; [done|].
  exfalso.
  assert (2 ^ 8 ≤ 2 ^ N.of_nat (length (pos_digits p) - 1))%N
    by (apply N.pow_le_mono_r; lia).
  change (2 ^ 8)%N with 256%N in *. lia.
Qed.

Lemma bin_length_wide (n : N) : (256 ≤ n)%N → 8 < length (bin n).
Proof.
  destruct n as [|p]; simpl; [lia|]. intros Hp.
  rewrite length_rev.
  destruct (pos_digits_bounds p) as [_ Hhi].
  destruct (decide (8 < length (pos_digits p))) as [|Hle]; [done|].
  exfalso.
  assert (2 ^ N.of_nat (length (pos_digits p)) ≤ 2 ^ 8)%N
    by (apply N.pow_le_mono_r; lia).
  change (2 ^ 8)%N with 256%N in *. lia.
Qed.

Lemma format_08b_length_byte (n : N) :
  (n < 256)%N → length (format_08b n) = 8.
Proof.
  intros Hn. unfold format_08b.
  rewrite length_app, length_replicate.
  pose proof (bin_length_byte n Hn). lia.
Qed.

Lemma format_08b_wide (n : N) : (256 ≤ n)%N → format_08b n = bin n.
Proof.
  intros Hn. unfold format_08b.
  pose proof (bin_length_wide n Hn).
  by replace (8 - length (bin n)) with 0 by lia.
Qed.

(** Eight bits are the expansion of the number they denote. *)
Lemma format_08b_int2_digits (chunk : bits) :
  length chunk = 8 → format_08b (int2_digits chunk) = chunk.
Proof.
  intros Hlen.
  do 9 (destruct chunk as [|? chunk]; try discriminate Hlen).
  repeat match goal with b : bool |- _ => destruct b end; reflexivity.
Qed.

Lemma int2_digits_byte (chunk : bits) :
  length chunk = 8 → (int2_digits chunk < 256)%N.
Proof.
  intros Hlen.
  do 9 (destruct chunk as [|? chunk]; try discriminate Hlen).
  repeat match goal with b : bool |- _ => destruct b end; reflexivity.
Qed.

Lemma msb8_int2_digits (chunk : bits) :
  length chunk = 8 → msb8 (int2_digits chunk) = chunk.
Proof.
  intros Hlen.
  do 9 (destruct chunk as [|? chunk]; try discriminate Hlen).
  repeat match goal with b : bool |- _ => destruct b end; reflexivity.
Qed.

Lemma format_08b_msb8 (c : N) : (c < 256)%N → format_08b c = msb8 c.
Proof.
  intros Hc.
  rewrite <- (int2_digits_format c) at 2.
  symmetry. apply msb8_int2_digits. by apply format_08b_length_byte.
Qed.

(** ** Groups of eight bits *)

Lemma decode_chunk (chunk rest : bits) :
  length chunk = 8 → decode (chunk ++ rest) = int2_digits chunk :: decode rest.
Proof.
  intros Hlen.
  do 9 (destruct chunk as [|? chunk]; try discriminate Hlen).
  reflexivity.
Qed.

Lemma decode_short (b : bits) : length b < 8 → decode b = [].
Proof.
  intros Hlen.
  do 8 (destruct b as [|? b]; [reflexivity|]).
  simpl in Hlen. lia.
Qed.

(** Induction over a bit string, eight bits at a time. *)
Lemma bits_ind8 (P : bits → Prop) :
  (∀ b, length b < 8 → P b) →
  (∀ chunk rest, length chunk = 8 → P rest → P (chunk ++ rest)) →
  ∀ b, P b.
Proof.
  intros Hshort Hchunk b.
  remember (length b) as n eqn:Hn.
  revert b Hn. induction n as [n IH] using lt_wf_ind. intros b ->.
  destruct (decide (length b < 8)) as [Hlt|Hge]; [by apply Hshort|].
  rewrite <- (take_drop 8 b). apply Hchunk.
  - rewrite length_take. lia.
  - apply (IH (length (drop 8 b))); [rewrite length_drop; lia|done].
Qed.

Lemma decode_length (b : bits) : length (decode b) = length b / 8.
Proof.
  induction b as [b Hlt|chunk rest Hlen IH] using bits_ind8.
  - rewrite decode_short by done. by rewrite Nat.div_small.
  - rewrite decode_chunk by done. rewrite length_app, Hlen. simpl length.
    rewrite IH. change 8 with (1 * 8) at 2.
    rewrite Nat.add_comm, Nat.div_add by lia. lia.
Qed.

Lemma decode_single_byte (b : bits) : single_byte (decode b).
Proof.
  induction b as [b Hlt|chunk rest Hlen IH] using bits_ind8.
  - rewrite decode_short by done. constructor.
  - rewrite decode_chunk by done. constructor; [|done].
    by apply int2_digits_byte.
Qed.

Lemma decode_app (b1 b2 : bits) (k : nat) :
  length b1 = 8 * k → decode (b1 ++ b2) = decode b1 ++ decode b2.
Proof.
  revert k. induction b1 as [b Hlt|chunk rest Hlen IH] using bits_ind8;
    intros k Hk.
  - assert (b = []) as -> by (destruct b; [done|simpl in *; lia]).
    reflexivity.
  - rewrite <- app_assoc.
    rewrite (decode_chunk chunk (rest ++ b2)), (decode_chunk chunk rest)
      by done.
    rewrite length_app, Hlen in Hk.
    rewrite (IH (k - 1)) by lia. reflexivity.
Qed.

Lemma decode_take (b : bits) :
  decode (take (length b - length b mod 8) b) = decode b.
Proof.
  pose proof (Nat.div_mod_eq (length b) 8) as Hdm.
  pose proof (Nat.mod_upper_bound (length b) 8 ltac:(lia)) as Hmod.
  set (m := length b - length b mod 8).
  assert (decode (take m b ++ drop m b) = decode (take m b)) as E.
  { rewrite (decode_app _ _ (length b / 8))
      by (rewrite length_take; unfold m; lia).
    rewrite (decode_short (drop _ _))
      by (rewrite length_drop; unfold m; lia).
    by rewrite app_nil_r. }
  by rewrite take_drop in E.
Qed.

(** ** The codec *)

Lemma string_to_binary_app (s t : str) :
  string_to_binary (s ++ t) = string_to_binary s ++ string_to_binary t.
Proof. unfold string_to_binary. apply flat_map_app. Qed.

Lemma string_to_binary_length (text : str) :
  single_byte text → length (string_to_binary text) = 8 * length text.
Proof.
  induction 1 as [|c text Hc _ IH]; [reflexivity|].
  change (string_to_binary (c :: text))
    with (format_08b c ++ string_to_binary text).
  rewrite length_app, IH, format_08b_length_byte by done. simpl. lia.
Qed.

Lemma decode_string_to_binary (text : str) (rest : bits) :
  single_byte text →
  decode (string_to_binary text ++ rest) = text ++ decode rest.
Proof.
  induction 1 as [|c text Hc _ IH]; [reflexivity|].
  change (string_to_binary (c :: text))
    with (format_08b c ++ string_to_binary text).
  rewrite <- app_assoc, decode_chunk by by apply format_08b_length_byte.
  rewrite IH, int2_digits_format. reflexivity.
Qed.

Lemma string_to_binary_decode (b : bits) :
  string_to_binary (decode b) = take (length b - length b mod 8) b.
Proof.
  induction b as [b Hlt|chunk rest Hlen IH] using bits_ind8.
  - rewrite decode_short by done. rewrite Nat.mod_small by done.
    by rewrite Nat.sub_diag.
  - rewrite decode_chunk by done.
    change (string_to_binary (int2_digits chunk :: decode rest))
      with (format_08b (int2_digits chunk) ++ string_to_binary (decode rest)).
    rewrite format_08b_int2_digits, IH by done.
    rewrite length_app, Hlen.
    replace ((8 + length rest) mod 8) with (length rest mod 8)
      by (change 8 with (1 * 8) at 2;
          rewrite Nat.add_comm, Nat.Div0.mod_add; done).
    pose proof (Nat.Div0.mod_le (length rest) 8).
    rewrite take_app_ge by lia. f_equal. f_equal. lia.
Qed.

Lemma string_to_binary_inj (s t : str) :
  single_byte s → single_byte t →
  string_to_binary s = string_to_binary t → s = t.
Proof.
  intros Hs Ht Heq.
  pose proof (decode_string_to_binary s [] Hs) as Es.
  pose proof (decode_string_to_binary t [] Ht) as Et.
  rewrite Heq, Et in Es. simpl in Es. by rewrite !app_nil_r in Es.
Qed.

(** The index-driven loop of [binary_to_string] reads the groups
    [decode] reads. *)
Lemma mapM_groups (q j : nat) (b : bits) :
  8 * j + 8 * q ≤ length b →
  mapM (fun i => n ← int2 (slice b i (i + 8)); chr n)
       (map (fun k => 8 * k) (seq j q))
  = Ok (take q (decode (drop (8 * j) b))).
Proof.
  revert j. induction q as [|q IH]; intros j Hlen; [reflexivity|].
  rewrite <- (take_drop 8 (drop (8 * j) b)).
  assert (length (take 8 (drop (8 * j) b)) = 8) as Hchunk
    by (rewrite length_take, length_drop; lia).
  rewrite decode_chunk by done.
  pose proof (int2_digits_byte _ Hchunk) as Hbyte.
  set (f := fun i => n ← int2 (slice b i (i + 8)); chr n) in *.
  assert (f (8 * j) = Ok (int2_digits (take 8 (drop (8 * j) b)))) as Hf.
  { unfold f, slice. replace (8 * j + 8 - 8 * j) with 8 by lia.
    unfold int2.
    destruct (take 8 (drop (8 * j) b)) as [|b0 chunk] eqn:E;
      [discriminate Hchunk|].
    cbn [mbind result_bind]. unfold chr.
    by destruct (N.leb_spec (int2_digits (b0 :: chunk)) 1114111); [|lia]. }
  cbn [seq map mapM]. rewrite Hf. cbn [mbind result_bind].
  rewrite (IH (S j)) by lia. cbn [mbind result_bind mret result_ret].
  rewrite drop_drop. replace (8 * S j) with (8 * j + 8) by lia.
  reflexivity.
Qed.

Lemma range_step_8 (n : nat) :
  range_step 0 n 8 = map (fun k => 8 * k) (seq 0 ((n + 7) / 8)).
Proof. unfold range_step. by rewrite Nat.sub_0_r. Qed.

Lemma binary_to_string_decode (binary : bits) :
  binary_to_string binary = Ok (decode binary).
Proof.
  unfold binary_to_string. cbv zeta.
  replace (slice binary 0 (length binary - length binary mod 8))
    with (take (length binary - length binary mod 8) binary)
    by (unfold slice; by rewrite Nat.sub_0_r, drop_0).
  set (b' := take _ binary).
  pose proof (Nat.div_mod_eq (length binary) 8) as Hdm.
  pose proof (Nat.mod_upper_bound (length binary) 8 ltac:(lia)) as Hmod.
  assert (length b' = 8 * (length binary / 8)) as Hlen
    by (unfold b'; rewrite length_take; lia).
  rewrite range_step_8, Hlen.
  replace ((8 * (length binary / 8) + 7) / 8) with (length binary / 8)
    by (apply Nat.div_unique with 7; lia).
  rewrite mapM_groups by (rewrite Hlen; lia).
  rewrite drop_0. unfold b'. rewrite decode_take.
  rewrite take_ge by (rewrite decode_length; lia). reflexivity.
Qed.

(** ** Writing the low-order bit *)

Lemma lsb_set_lsb (sample : Z) (b : bool) : lsb (set_lsb sample (Z.b2z b)) = b.
Proof.
  unfold lsb, set_lsb.
  rewrite Z.land_lor_distr_l, <- Z.land_assoc.
  change (Z.land 254 1) with 0%Z. rewrite Z.land_0_r, Z.lor_0_l.
  by destruct b.
Qed.

Lemma set_lsb_low_bit (sample : Z) (b : bool) :
  Z.testbit (set_lsb sample (Z.b2z b)) 0 = b.
Proof.
  unfold set_lsb. rewrite Z.lor_spec, Z.land_spec.
  change (Z.testbit 254 0) with false. rewrite andb_false_r.
  by destruct b.
Qed.

Lemma testbit_254 (k : Z) : (1 ≤ k < 8)%Z → Z.testbit 254 k = true.
Proof.
  intros Hk.
  assert (k = 1 ∨ k = 2 ∨ k = 3 ∨ k = 4 ∨ k = 5 ∨ k = 6 ∨ k = 7)%Z
    as Hcases by lia.
  destruct Hcases as [->|[->|[->|[->|[->|[->| ->]]]]]]; reflexivity.
Qed.

Lemma testbit_b2z_high (b : bool) (k : Z) :
  (1 ≤ k)%Z → Z.testbit (Z.b2z b) k = false.
Proof.
  intros Hk. destruct b; simpl.
  - change 1%Z with (2 ^ 0)%Z. rewrite Z.pow2_bits_eqb by lia.
    apply Z.eqb_neq. lia.
  - apply Z.bits_0.
Qed.

Lemma set_lsb_high_bits (sample : Z) (b : bool) (k : Z) :
  (1 ≤ k < 8)%Z →
  Z.testbit (set_lsb sample (Z.b2z b)) k = Z.testbit sample k.
Proof.
  intros Hk. unfold set_lsb.
  rewrite Z.lor_spec, Z.land_spec, testbit_254, testbit_b2z_high by lia.
  by rewrite andb_true_r, orb_false_r.
Qed.

Lemma uint8_log2 (v : Z) : (0 ≤ v)%Z → (Z.log2 v < 8)%Z → uint8 v.
Proof.
  intros Hv Hlog. split; [done|].
  destruct (decide (v = 0%Z)) as [->|Hnz]; [lia|].
  change 256%Z with (2 ^ 8)%Z. apply Z.log2_lt_pow2; lia.
Qed.

Lemma log2_uint8 (v : Z) : uint8 v → (Z.log2 v < 8)%Z.
Proof.
  intros [Hlo Hhi].
  destruct (decide (v = 0%Z)) as [->|Hnz]; [simpl; lia|].
  apply Z.log2_lt_pow2; [lia|done].
Qed.

Lemma set_lsb_uint8 (sample : Z) (b : bool) :
  uint8 sample → uint8 (set_lsb sample (Z.b2z b)).
Proof.
  intros Hs. pose proof (log2_uint8 _ Hs) as Hlog. destruct Hs as [Hlo Hhi].
  unfold set_lsb.
  assert (0 ≤ Z.land sample 254)%Z by (apply Z.land_nonneg; lia).
  assert (0 ≤ Z.b2z b)%Z by (destruct b; simpl; lia).
  apply uint8_log2; [apply Z.lor_nonneg; lia|].
  rewrite Z.log2_lor by lia.
  apply Z.max_lub_lt.
  - eapply Z.le_lt_trans; [apply Z.log2_land; lia|].
    apply Z.min_lt_iff. by left.
  - destruct b; simpl; lia.
Qed.

(** ** The embedded carrier *)

Lemma overwrite_length (flat : list Z) (bs : bits) :
  length bs ≤ length flat → length (overwrite flat bs) = length flat.
Proof.
  intros Hfit. unfold overwrite.
  rewrite length_app, length_zip_with, length_take, length_fmap, length_drop.
  lia.
Qed.

Lemma overwrite_lookup_lt (flat : list Z) (bs : bits) (i : nat) sample bit :
  flat !! i = Some sample → bs !! i = Some bit →
  overwrite flat bs !! i = Some (set_lsb sample (Z.b2z bit)).
Proof.
  intros Hs Hb. unfold overwrite.
  pose proof (lookup_lt_Some _ _ _ Hs). pose proof (lookup_lt_Some _ _ _ Hb).
  rewrite lookup_app_l
    by (rewrite length_zip_with, length_take, length_fmap; lia).
  rewrite lookup_zip_with, lookup_take_lt, Hs, list_lookup_fmap, Hb by lia.
  reflexivity.
Qed.

Lemma overwrite_lookup_ge (flat : list Z) (bs : bits) (i : nat) :
  length bs ≤ length flat → length bs ≤ i →
  overwrite flat bs !! i = flat !! i.
Proof.
  intros Hfit Hi. unfold overwrite.
  rewrite lookup_app_r
    by (rewrite length_zip_with, length_take, length_fmap; lia).
  rewrite length_zip_with, length_take, length_fmap, lookup_drop.
  f_equal. lia.
Qed.

Lemma lsbs_overwrite (flat : list Z) (bs : bits) :
  length bs ≤ length flat →
  lsbs (overwrite flat bs) = bs ++ lsbs (drop (length bs) flat).
Proof.
  intros Hfit. unfold lsbs, overwrite. rewrite map_app. f_equal.
  apply list_eq. intros i.
  change (map lsb ?l) with (lsb <$> l).
  rewrite list_lookup_fmap, lookup_zip_with, list_lookup_fmap.
  destruct (bs !! i) as [bit|] eqn:Hb.
  - pose proof (lookup_lt_Some _ _ _ Hb).
    destruct (lookup_lt_is_Some_2 flat i ltac:(lia)) as [sample Hs].
    rewrite lookup_take_lt, Hs by lia. simpl. by rewrite lsb_set_lsb.
  - simpl. by destruct (take (length bs) flat !! i).
Qed.

Lemma overwrite_uint8 (flat : list Z) (bs : bits) :
  Forall uint8 flat → Forall uint8 (overwrite flat bs).
Proof.
  intros Hflat. unfold overwrite. apply Forall_app. split.
  - apply Forall_lookup. intros i v Hv.
    apply lookup_zip_with_Some in Hv as (sample & z & -> & Hs & Hz).
    rewrite list_lookup_fmap in Hz.
    destruct (bs !! i) as [bit|]; [|discriminate].
    injection Hz as <-. apply set_lsb_uint8.
    apply lookup_take_Some in Hs as [Hs _].
    by eapply Forall_lookup_1.
  - by apply Forall_drop.
Qed.

(** ** Searching for a substring *)

Lemma starts_with_prefix (sub s : str) :
  starts_with sub s = true ↔ ∃ r, s = sub ++ r.
Proof.
  revert s. induction sub as [|a sub IH]; intros s; simpl.
  - split; [eauto|done].
  - destruct s as [|b s]; [split; [done|by intros [? ?]]|].
    rewrite andb_true_iff, N.eqb_eq, IH. split.
    + intros [-> [r ->]]. eauto.
    + intros [r [= -> ->]]. eauto.
Qed.

Lemma starts_with_refl_app (sub r : str) : starts_with sub (sub ++ r) = true.
Proof. apply starts_with_prefix. eauto. Qed.

(** Only the first [length sub] characters matter. *)
Lemma starts_with_app (sub s r : str) :
  length sub ≤ length s → starts_with sub (s ++ r) = starts_with sub s.
Proof.
  revert s. induction sub as [|a sub IH]; intros s Hlen; [reflexivity|].
  destruct s as [|b s]; simpl in *; [lia|].
  rewrite IH by lia. reflexivity.
Qed.

Lemma find_from_spec (sub s : str) (i : Z) :
  (find_from s sub i = (-1)%Z ∧ none_before sub s (S (length s)))
  ∨ (∃ k, k ≤ length s ∧ find_from s sub i = (i + Z.of_nat k)%Z
          ∧ starts_with sub (drop k s) = true ∧ none_before sub s k).
Proof.
  revert i. induction s as [|c s IH]; intros i; simpl.
  - destruct (starts_with sub []) eqn:E.
    + right. exists 0. repeat split; [lia|lia|done|intros j; lia].
    + left. split; [done|]. intros j Hj. by destruct j.
  - destruct (starts_with sub (c :: s)) eqn:E.
    + right. exists 0. repeat split; [lia|lia|done|intros j; lia].
    + destruct (IH (i + 1)%Z) as [[Hf Hn]|(k & Hk & Hf & Hs & Hn)].
      * left. split; [done|].
        intros [|j] Hj; [done|]. apply Hn. lia.
      * right. exists (S k). repeat split; [lia|lia|done|].
        intros [|j] Hj; [done|]. apply Hn. lia.
Qed.

Lemma find_none (sub s : str) :
  none_before sub s (S (length s)) → find s sub = (-1)%Z.
Proof.
  intros Hnone. unfold find.
  destruct (find_from_spec sub s 0) as [[Hf _]|(k & Hk & _ & Hs & _)];
    [done|].
  rewrite Hnone in Hs by lia. done.
Qed.

Lemma find_first (sub s : str) (k : nat) :
  starts_with sub (drop k s) = true → none_before sub s k →
  k ≤ length s → find s sub = Z.of_nat k.
Proof.
  intros Hs Hnone Hk. unfold find.
  destruct (find_from_spec sub s 0) as [[_ Hn]|(k' & Hk' & Hf & Hs' & Hn')].
  - rewrite Hn in Hs by lia. done.
  - rewrite Hf. destruct (Nat.lt_trichotomy k k') as [Hlt|[->|Hgt]].
    + rewrite Hn' in Hs by done. done.
    + lia.
    + rewrite Hnone in Hs' by done. done.
Qed.

Lemma find_found (sub s : str) (k : nat) :
  find s sub = Z.of_nat k →
  k ≤ length s ∧ starts_with sub (drop k s) = true ∧ none_before sub s k.
Proof.
  unfold find. intros Hf.
  destruct (find_from_spec sub s 0) as [[Hf' _]|(k' & Hk' & Hf' & Hs' & Hn')].
  - lia.
  - assert (k' = k) as -> by lia. done.
Qed.

(** A first occurrence inside [a ++ sub] stays the first one whatever
    follows. *)
Lemma find_framed (sub a rest : str) :
  find (a ++ sub) sub = Z.of_nat (length a) →
  find (a ++ sub ++ rest) sub = Z.of_nat (length a).
Proof.
  intros Hf. apply find_found in Hf as (_ & _ & Hnone).
  apply find_first.
  - rewrite drop_app_length. apply starts_with_refl_app.
  - intros j Hj. specialize (Hnone j Hj).
    rewrite app_assoc, drop_app_le by (rewrite length_app; lia).
    rewrite starts_with_app; [done|].
    rewrite length_drop, length_app. lia.
  - rewrite length_app. lia.
Qed.

(** ** [stag.py]: embedding and extraction *)

Lemma Stag_embed_ok (img : ndarray) (text : str) :
  wf_ndarray img →
  length (string_to_binary (text ++ Stag.delimiter)) ≤ size img →
  Stag.embed img text
  = Ok {| shape := shape img;
          ravel := overwrite (ravel img)
                     (string_to_binary (text ++ Stag.delimiter)) |}.
Proof.
  intros [Hsize _] Hfit. unfold Stag.embed. cbv zeta.
  destruct (Nat.ltb_spec (size img)
              (length (string_to_binary (text ++ Stag.delimiter))));
    [lia|].
  rewrite bool_decide_eq_true_2
    by (rewrite length_take, length_map; lia).
  reflexivity.
Qed.

Lemma Stag_embed_too_small (img : ndarray) (text : str) :
  size img < length (string_to_binary (text ++ Stag.delimiter)) →
  Stag.embed img text
  = Raise (ValueError (MImageTooSmall
             (length (string_to_binary (text ++ Stag.delimiter)))
             (size img))).
Proof.
  intros Hbig. unfold Stag.embed. cbv zeta.
  destruct (Nat.ltb_spec (size img)
              (length (string_to_binary (text ++ Stag.delimiter))));
    [reflexivity|lia].
Qed.

Lemma delimiter_single_byte : single_byte Stag.delimiter.
Proof. unfold single_byte. repeat constructor. Qed.

(** A carrier whose low-order bits start with the bits of
    [a ++ delimiter ++ ...] yields [a], provided the delimiter does not
    begin earlier. *)
Lemma Stag_extract_framed (img : ndarray) (a rest : str) (garbage : bits) :
  lsbs (ravel img)
  = string_to_binary (a ++ Stag.delimiter ++ rest) ++ garbage →
  single_byte a → single_byte rest →
  find (a ++ Stag.delimiter) Stag.delimiter = Z.of_nat (length a) →
  Stag.extract img = Ok a.
Proof.
  intros Hbits Ha Hrest Hfind. unfold Stag.extract. cbv zeta.
  rewrite binary_to_string_decode. cbn [mbind result_bind].
  rewrite Hbits, decode_string_to_binary.
  2:{ pose proof delimiter_single_byte. unfold single_byte in *.
      by repeat apply Forall_app_2. }
  rewrite <- !app_assoc, (find_framed _ _ _ Hfind).
  rewrite bool_decide_eq_true_2 by lia.
  unfold slice. rewrite Nat.sub_0_r, drop_0, Nat2Z.id.
  by rewrite take_app_length.
Qed.

(** ** [sdfbhzdf.py]: embedding and extraction *)

(** What the pixel loop has done once it has run over the indices
    [k, k+1, ..., k+m-1]. *)
Lemma embed_loop_spec (bs : bits) (m k : nat) (flat : list Z) :
  k + m ≤ length bs → length bs ≤ length flat →
  ∃ r, RGB.embed_loop bs (seq k m) flat = Ok r
       ∧ length r = length flat
       ∧ ∀ i, r !! i =
              if decide (k ≤ i < k + m)
              then match flat !! i, bs !! i with
                   | Some sample, Some bit => Some (set_lsb sample (Z.b2z bit))
                   | _, _ => None
                   end
              else flat !! i.
Proof.
  revert k flat. induction m as [|m IH]; intros k flat Hk Hfit.
  - exists flat. repeat split. intros i. case_decide; [lia|done].
  - destruct (lookup_lt_is_Some_2 flat k ltac:(lia)) as [sample Hs].
    destruct (lookup_lt_is_Some_2 bs k ltac:(lia)) as [bit Hb].
    cbn [seq RGB.embed_loop]. rewrite Hs, Hb.
    destruct (IH (S k) (<[k:=set_lsb sample (Z.b2z bit)]> flat))
      as (r & Hr & Hlen & Hlook); [lia|by rewrite length_insert|].
    exists r. split; [done|]. split; [by rewrite Hlen, length_insert|].
    intros i. rewrite Hlook.
    destruct (decide (i = k)) as [->|Hne].
    + rewrite decide_False, decide_True by lia.
      rewrite list_lookup_insert_eq by lia. by rewrite Hs, Hb.
    + rewrite list_lookup_insert_ne by done.
      repeat case_decide; done || lia.
Qed.

Lemma embed_loop_overwrite (bs : bits) (flat : list Z) :
  length bs ≤ length flat →
  RGB.embed_loop bs (seq 0 (length bs)) flat = Ok (overwrite flat bs).
Proof.
  intros Hfit.
  destruct (embed_loop_spec bs (length bs) 0 flat) as (r & -> & Hlen & Hlook);
    [lia|done|].
  f_equal. apply list_eq. intros i. rewrite Hlook.
  case_decide as Hi.
  - destruct (lookup_lt_is_Some_2 flat i ltac:(lia)) as [sample Hs].
    destruct (lookup_lt_is_Some_2 bs i ltac:(lia)) as [bit Hb].
    rewrite (overwrite_lookup_lt _ _ _ _ _ Hs Hb), Hs, Hb. reflexivity.
  - rewrite overwrite_lookup_ge by lia. reflexivity.
Qed.

Lemma wf_rgb_size (pixels : ndarray) (height width : nat) :
  shape pixels = [height; width; 3] → size pixels = width * height * 3.
Proof. unfold size. intros ->. simpl. lia. Qed.

Lemma RGB_embed_ok (pixels : ndarray) (text : str) :
  wf_rgb pixels →
  length (string_to_binary (text ++ RGB.delimiter)) ≤ size pixels →
  RGB.embed pixels text
  = Ok (RGB.Written
          {| shape := shape pixels;
             ravel := overwrite (ravel pixels)
                        (string_to_binary (text ++ RGB.delimiter)) |}).
Proof.
  intros [[Hsize _] (height & width & Hshape)] Hfit.
  pose proof (wf_rgb_size _ _ _ Hshape) as Hcap.
  unfold RGB.embed. rewrite Hshape. cbv zeta.
  destruct (Nat.ltb_spec (width * height * 3)
              (length (string_to_binary (text ++ RGB.delimiter))));
    [lia|].
  rewrite embed_loop_overwrite by lia. reflexivity.
Qed.

Lemma RGB_embed_too_long (pixels : ndarray) (text : str) height width c :
  shape pixels = [height; width; c] →
  width * height * 3 < length (string_to_binary (text ++ RGB.delimiter)) →
  RGB.embed pixels text
  = Ok (RGB.TooLong (length (string_to_binary (text ++ RGB.delimiter)))
                    (width * height * 3)).
Proof.
  intros Hshape Hbig. unfold RGB.embed. rewrite Hshape. cbv zeta.
  destruct (Nat.ltb_spec (width * height * 3)
              (length (string_to_binary (text ++ RGB.delimiter))));
    [reflexivity|lia].
Qed.

Lemma RGB_delimiter_single_byte : single_byte RGB.delimiter.
Proof. unfold single_byte. repeat constructor. Qed.

Lemma RGB_delimiter_length : length RGB.delimiter = 9.
Proof. reflexivity. Qed.

(** The bits of the characters [k, ..., k+j-1] of a text. *)
Lemma slice_string_to_binary (t : str) (g : bits) (k j : nat) :
  single_byte t → k + j ≤ length t →
  slice (string_to_binary t ++ g) (8 * k) (8 * k + 8 * j)
  = string_to_binary (take j (drop k t)).
Proof.
  intros Ht Hkj. unfold slice.
  replace (8 * k + 8 * j - 8 * k) with (8 * j) by lia.
  rewrite <- (take_drop k t) at 1.
  rewrite <- (take_drop j (drop k t)) at 1.
  rewrite !string_to_binary_app, <- !app_assoc.
  assert (single_byte (take k t)) as H1 by by apply Forall_take.
  assert (single_byte (take j (drop k t))) as H2
    by by apply Forall_take, Forall_drop.
  rewrite drop_app_length'
    by (rewrite string_to_binary_length, length_take by done; lia).
  rewrite take_app_length'
    by (rewrite string_to_binary_length, length_take, length_drop by done;
        lia).
  reflexivity.
Qed.

Section Scan.
(** The text [framed] begins with the payload [a] and the delimiter; its
    bits begin the low-order bits [binary_data] of the carrier. *)
Variables (a rest framed : str) (garbage binary_data : bits).
Hypothesis Ha : single_byte a.
Hypothesis Hrest : single_byte rest.
Hypothesis Hfind :
  find (a ++ RGB.delimiter) RGB.delimiter = Z.of_nat (length a).
Hypothesis Hframed : framed = a ++ RGB.delimiter ++ rest.
Hypothesis Hdata : binary_data = string_to_binary framed ++ garbage.

Local Lemma framed_single_byte : single_byte framed.
Proof.
  pose proof RGB_delimiter_single_byte. rewrite Hframed.
  unfold single_byte in *. by repeat apply Forall_app_2.
Qed.

Local Lemma framed_first : none_before RGB.delimiter framed (length a).
Proof.
  pose proof (find_framed _ _ rest Hfind) as Hf. rewrite Hframed.
  by apply find_found in Hf as (_ & _ & Hnone).
Qed.

Local Lemma binary_data_length :
  8 * (length a + 9) ≤ length binary_data.
Proof.
  rewrite Hdata, length_app, string_to_binary_length
    by apply framed_single_byte.
  rewrite Hframed, !length_app, RGB_delimiter_length. lia.
Qed.

(** Before the payload ends the delimiter test fails and one character
    is decoded. *)
Local Lemma scan_step (k : nat) (c : N) :
  a !! k = Some c →
  slice binary_data (8 * k) (8 * k + length (string_to_binary RGB.delimiter))
    ≠ string_to_binary RGB.delimiter
  ∧ slice binary_data (8 * k) (8 * k + 8) = format_08b c.
Proof.
  intros Hc. pose proof (lookup_lt_Some _ _ _ Hc) as Hk.
  pose proof framed_single_byte as Hsb.
  assert (length framed = length a + 9 + length rest) as Hlen
    by (rewrite Hframed, !length_app, RGB_delimiter_length; lia).
  split.
  - rewrite string_to_binary_length by apply RGB_delimiter_single_byte.
    rewrite Hdata.
    rewrite slice_string_to_binary
      by (done || rewrite RGB_delimiter_length; lia).
    intros Heq. apply string_to_binary_inj in Heq;
      [|by apply Forall_take, Forall_drop|apply RGB_delimiter_single_byte].
    pose proof (framed_first k Hk) as Hno.
    rewrite <- (take_drop (length RGB.delimiter) (drop k framed)) in Hno.
    rewrite Heq, starts_with_refl_app in Hno. done.
  - rewrite Hdata.
    replace (8 * k + 8) with (8 * k + 8 * 1) by lia.
    rewrite slice_string_to_binary by (done || lia).
    assert (framed !! k = Some c) as Hc'
      by (rewrite Hframed; by rewrite lookup_app_l).
    rewrite (drop_S _ _ _ Hc'). cbn [take]. rewrite take_0.
    unfold string_to_binary. simpl. by rewrite app_nil_r.
Qed.

(** Where the payload ends the delimiter test succeeds. *)
Local Lemma scan_stop :
  slice binary_data (8 * length a)
        (8 * length a + length (string_to_binary RGB.delimiter))
  = string_to_binary RGB.delimiter.
Proof.
  rewrite (string_to_binary_length RGB.delimiter)
    by apply RGB_delimiter_single_byte.
  rewrite Hdata.
  rewrite slice_string_to_binary;
    [|apply framed_single_byte|rewrite Hframed, !length_app; lia].
  rewrite Hframed, drop_app_length, take_app_length. reflexivity.
Qed.

Lemma extract_loop_framed (m k : nat) (message : str) :
  k ≤ length a → length a < k + m →
  RGB.extract_loop binary_data (string_to_binary RGB.delimiter)
    (map (fun i => 8 * i) (seq k m)) message
  = Ok (message ++ drop k a).
Proof.
  revert k message. induction m as [|m IH]; intros k message Hk Hm; [lia|].
  cbn [seq map RGB.extract_loop].
  destruct (decide (k = length a)) as [->|Hne].
  - rewrite scan_stop, bool_decide_eq_true_2 by done.
    pose proof binary_data_length as Hlen.
    rewrite (string_to_binary_length RGB.delimiter)
      by apply RGB_delimiter_single_byte.
    rewrite RGB_delimiter_length.
    destruct (Nat.leb_spec (8 * length a + 8 * 9) (length binary_data));
      [|lia].
    simpl. by rewrite drop_all, app_nil_r.
  - destruct (lookup_lt_is_Some_2 a k ltac:(lia)) as [c Hc].
    destruct (scan_step k c Hc) as [Hno Hbyte].
    rewrite (bool_decide_eq_false_2 _ Hno), andb_false_r.
    rewrite Hbyte.
    pose proof (Forall_lookup_1 _ _ _ _ Ha Hc) as Hbyte_c. simpl in Hbyte_c.
    assert (int2 (format_08b c) = Ok c) as ->.
    { unfold int2. pose proof (format_08b_length_byte c Hbyte_c).
      destruct (format_08b c) eqn:E; [done|].
      by rewrite <- E, int2_digits_format. }
    cbn [mbind result_bind]. unfold chr.
    destruct (N.leb_spec c 1114111); [|lia].
    cbn [mbind result_bind]. rewrite IH by lia.
    by rewrite <- app_assoc, (drop_S _ _ _ Hc).
Qed.

Lemma scan_binary_data (pixels : ndarray) :
  lsbs (ravel pixels) = binary_data → RGB.scan pixels = Ok a.
Proof.
  intros Hbits. unfold RGB.scan. cbv zeta. rewrite Hbits, range_step_8.
  pose proof binary_data_length as Hlen.
  rewrite extract_loop_framed; [by rewrite drop_0|lia|].
  apply Nat.div_le_lower_bound with (b := 8) (q := S (length a)); lia.
Qed.
End Scan.

Lemma RGB_scan_framed (a rest : str) (garbage : bits) :
  single_byte a → single_byte rest →
  find (a ++ RGB.delimiter) RGB.delimiter = Z.of_nat (length a) →
  ∀ pixels,
    lsbs (ravel pixels)
    = string_to_binary (a ++ RGB.delimiter ++ rest) ++ garbage →
    RGB.scan pixels = Ok a.
Proof.
  intros Ha Hrest Hfind pixels Hbits.
  by apply (scan_binary_data a rest _ garbage _ Ha Hrest Hfind
              eq_refl eq_refl).
Qed.

(** ** The methods, with their files and output *)

Section Methods.
Context {blob : Type}.
Variable cv2_imread : blob → option ndarray.
Variable cv2_imwrite : string → ndarray → option blob.
Variable pil_verify : blob → bool.
Variable pil_open_rgb : blob → option ndarray.
Variable pil_save : string → ndarray → option blob.
Variable verbose : bool.

Lemma Stag_load_ok (w : world blob) image_path contents img :
  files w !! image_path = Some contents → cv2_imread contents = Some img →
  Stag.load cv2_imread image_path w = (Ok img, w).
Proof.
  intros Hfile Hread.
  unfold Stag.load, mbind, io_mbind, io_bind, isfile, read_file.
  rewrite bool_decide_eq_true_2 by (rewrite Hfile; eauto).
  simpl. rewrite Hfile. simpl. rewrite Hread. reflexivity.
Qed.

Lemma Stag_hide_fits (w : world blob) image_path output_path contents img
    text saved :
  files w !! image_path = Some contents → cv2_imread contents = Some img →
  wf_ndarray img →
  length (string_to_binary (text ++ Stag.delimiter)) ≤ size img →
  cv2_imwrite output_path
    {| shape := shape img;
       ravel := overwrite (ravel img)
                  (string_to_binary (text ++ Stag.delimiter)) |}
  = Some saved →
  Stag.hide_text_in_image cv2_imread cv2_imwrite image_path text output_path w
  = (Ok true,
     World (<[output_path := saved]> (files w))
           (stdout w ++ [PTextHidden output_path;
                         PHiddenChars (length text)])).
Proof.
  intros Hfile Hread Hwf Hfit Hsave.
  unfold Stag.hide_text_in_image, try_except, mbind, io_mbind, io_bind.
  rewrite (Stag_load_ok _ _ _ _ Hfile Hread).
  unfold lift. rewrite Stag_embed_ok by done. rewrite Hsave.
  unfold write_file, print, io_ret. simpl.
  by rewrite <- app_assoc.
Qed.

Lemma Stag_hide_too_small (w : world blob) image_path output_path contents
    img text :
  files w !! image_path = Some contents → cv2_imread contents = Some img →
  size img < length (string_to_binary (text ++ Stag.delimiter)) →
  Stag.hide_text_in_image cv2_imread cv2_imwrite image_path text output_path w
  = (Ok false,
     World (files w)
           (stdout w ++ [PErrorHiding
                           (MImageTooSmall
                              (length (string_to_binary
                                         (text ++ Stag.delimiter)))
                              (size img))])).
Proof.
  intros Hfile Hread Hbig.
  unfold Stag.hide_text_in_image, try_except, mbind, io_mbind, io_bind.
  rewrite (Stag_load_ok _ _ _ _ Hfile Hread).
  unfold lift. rewrite Stag_embed_too_small by done.
  reflexivity.
Qed.

Lemma RGB_validate_ok (w : world blob) image_path contents :
  files w !! image_path = Some contents →
  endswith_any (lower image_path) [".png"; ".jpg"; ".jpeg"] = true →
  pil_verify contents = true →
  RGB.validate_image pil_verify verbose image_path w
  = (Ok true, World (files w) (stdout w ++ logged verbose [LValidImage image_path])).
Proof.
  intros Hfile Hext Hverify.
  unfold RGB.validate_image, try_except, mbind, io_mbind, io_bind,
    isfile, read_file.
  rewrite bool_decide_eq_true_2 by (rewrite Hfile; eauto).
  cbn [negb]. rewrite Hext. cbn [negb]. rewrite Hfile, Hverify.
  unfold RGB._log, logged, print, io_ret. destruct verbose; simpl.
  - reflexivity.
  - rewrite app_nil_r. by destruct w.
Qed.

Lemma RGB_hide_fits (w : world blob) image_path output_path contents pixels
    text saved :
  files w !! image_path = Some contents →
  endswith_any (lower image_path) [".png"; ".jpg"; ".jpeg"] = true →
  pil_verify contents = true → pil_open_rgb contents = Some pixels →
  wf_rgb pixels →
  length (string_to_binary (text ++ RGB.delimiter)) ≤ size pixels →
  pil_save output_path
    {| shape := shape pixels;
       ravel := overwrite (ravel pixels)
                  (string_to_binary (text ++ RGB.delimiter)) |}
  = Some saved →
  RGB.hide_text_in_image pil_verify pil_open_rgb pil_save verbose
    image_path text output_path w
  = (Ok true,
     World (<[output_path := saved]> (files w))
           (stdout w
            ++ logged verbose [LValidImage image_path;
                       LHidden output_path (length text)
                         (length (string_to_binary
                                    (text ++ RGB.delimiter)))])).
Proof.
  intros Hfile Hext Hverify Hopen Hwf Hfit Hsave.
  unfold RGB.hide_text_in_image, try_except, mbind, io_mbind.
  unfold io_bind at 1.
  rewrite (RGB_validate_ok _ _ _ Hfile Hext Hverify). simpl.
  unfold RGB.open_rgb, mbind, io_mbind, io_bind, read_file, lift. simpl.
  rewrite Hfile. simpl. rewrite Hopen. simpl.
  rewrite RGB_embed_ok by done. rewrite Hsave.
  unfold write_file, RGB._log, logged, print, io_ret.
  destruct verbose; simpl.
  - by rewrite <- app_assoc.
  - reflexivity.
Qed.

Lemma RGB_hide_too_long (w : world blob) image_path output_path contents
    pixels text height width c :
  files w !! image_path = Some contents →
  endswith_any (lower image_path) [".png"; ".jpg"; ".jpeg"] = true →
  pil_verify contents = true → pil_open_rgb contents = Some pixels →
  shape pixels = [height; width; c] →
  width * height * 3 < length (string_to_binary (text ++ RGB.delimiter)) →
  RGB.hide_text_in_image pil_verify pil_open_rgb pil_save verbose
    image_path text output_path w
  = (Ok false,
     World (files w)
           (stdout w
            ++ logged verbose [LValidImage image_path;
                       LMessageTooLong
                         (length (string_to_binary (text ++ RGB.delimiter)))
                         (width * height * 3)])).
Proof.
  intros Hfile Hext Hverify Hopen Hshape Hbig.
  unfold RGB.hide_text_in_image, try_except, mbind, io_mbind.
  unfold io_bind at 1.
  rewrite (RGB_validate_ok _ _ _ Hfile Hext Hverify). simpl.
  unfold RGB.open_rgb, mbind, io_mbind, io_bind, read_file, lift. simpl.
  rewrite Hfile. simpl. rewrite Hopen. simpl.
  rewrite (RGB_embed_too_long _ _ _ _ _ Hshape Hbig).
  unfold RGB._log, logged, print, io_ret.
  destruct verbose; simpl.
  - by rewrite <- app_assoc.
  - reflexivity.
Qed.

End Methods.

(** ** The claims about the bit codec *)

Lemma bits_decode_split (b : bits) :
  b = string_to_binary (decode b) ++ drop (length b - length b mod 8) b.
Proof. by rewrite string_to_binary_decode, take_drop. Qed.

Lemma decode_lookup (b : bits) (i : nat) :
  i < length b / 8 →
  ∃ c, decode b !! i = Some c ∧ (c < 256)%N
       ∧ msb8 c = slice b (8 * i) (8 * i + 8)
       ∧ c = int2_digits (slice b (8 * i) (8 * i + 8)).
Proof.
  intros Hi. rewrite <- decode_length in Hi.
  destruct (lookup_lt_is_Some_2 _ _ Hi) as [c Hc].
  pose proof (decode_single_byte b) as Hsb.
  pose proof (Forall_lookup_1 _ _ _ _ Hsb Hc) as Hbyte. simpl in Hbyte.
  assert (slice b (8 * i) (8 * i + 8) = format_08b c) as Hslice.
  { rewrite (bits_decode_split b) at 1.
    replace (8 * i + 8) with (8 * i + 8 * 1) by lia.
    rewrite slice_string_to_binary by (done || lia).
    rewrite (drop_S _ _ _ Hc). cbn [take]. rewrite take_0.
    unfold string_to_binary. simpl. by rewrite app_nil_r. }
  exists c. repeat split; [done|done| |].
  - by rewrite Hslice, format_08b_msb8.
  - by rewrite Hslice, int2_digits_format.
Qed.

(** C10. Decoding the encoding of a text whose code points are all at
    most 255 gives the text back:
    [binary_to_string(string_to_binary(t)) == t]. *)
Theorem codec_round_trip (t : str) :
  single_byte t → binary_to_string (string_to_binary t) = Ok t.
Proof.
  intros Ht. rewrite binary_to_string_decode. f_equal.
  rewrite <- (app_nil_r (string_to_binary t)).
  rewrite decode_string_to_binary by done. apply app_nil_r.
Qed.

Lemma codec_round_trip_witness :
  single_byte (lit "HELLO")
  ∧ binary_to_string (string_to_binary (lit "HELLO")) = Ok (lit "HELLO").
Proof.
  assert (single_byte (lit "HELLO")) as H
    by (unfold single_byte; repeat constructor).
  split; [exact H|exact (codec_round_trip (lit "HELLO") H)].
Defined.

(** C9. [binary_to_string] never fails: on every bit string it returns a
    text of [len(bits) // 8] characters; character [i] is the number that
    the bits [8i .. 8i+7] spell most significant bit first, whatever that
    number is; the bits after the last complete group of eight are
    dropped. *)
Theorem binary_to_string_total (binary : bits) :
  ∃ text, binary_to_string binary = Ok text
    ∧ length text = length binary / 8
    ∧ (∀ i, i < length binary / 8 →
         ∃ c, text !! i = Some c ∧ (c < 256)%N
              ∧ msb8 c = slice binary (8 * i) (8 * i + 8)
              ∧ c = int2_digits (slice binary (8 * i) (8 * i + 8)))
    ∧ binary_to_string (slice binary 0 (8 * (length binary / 8))) = Ok text.
Proof.
  exists (decode binary). split; [apply binary_to_string_decode|].
  split; [apply decode_length|]. split; [apply decode_lookup|].
  rewrite binary_to_string_decode. f_equal.
  unfold slice. rewrite Nat.sub_0_r, drop_0.
  pose proof (Nat.div_mod_eq (length binary) 8) as Hdm.
  replace (8 * (length binary / 8))
    with (length binary - length binary mod 8) by lia.
  apply decode_take.
Qed.

Lemma binary_to_string_total_witness :
  ∃ text,
    binary_to_string [false; true; false; false; false; false; false; true;
                      true; true; true] = Ok text
    ∧ text = lit "A".
Proof.
  destruct (binary_to_string_total
              [false; true; false; false; false; false; false; true;
               true; true; true]) as (text & Hok & _).
  exists text. split; [exact Hok|].
  vm_compute in Hok. by injection Hok as <-.
Defined.

Lemma spec_encode_single_byte (text : str) :
  single_byte text → spec_encode text = Bits (flat_map msb8 text).
Proof.
  intros Hsb. unfold spec_encode.
  replace (forallb (fun c => (c <=? 255)%N) text) with true; [done|].
  symmetry. apply forallb_forall. intros c Hin.
  apply list_elem_of_In in Hin.
  pose proof (proj1 (Forall_forall _ _) Hsb c Hin) as Hc. simpl in Hc.
  apply N.leb_le. lia.
Qed.

Lemma string_to_binary_msb8 (text : str) :
  single_byte text → string_to_binary text = flat_map msb8 text.
Proof.
  induction 1 as [|c text Hc _ IH]; [reflexivity|].
  change (string_to_binary (c :: text))
    with (format_08b c ++ string_to_binary text).
  by rewrite IH, format_08b_msb8.
Qed.

(** C6, as the specification has it, fails on the code: a character above
    255 raises nothing; [string_to_binary] returns its nine or more binary
    digits, and [hide_text_in_image] goes on to embed them. *)
Lemma encoding_error_counterexample :
  spec_encode [256%N] = EncodingError
  ∧ string_to_binary [256%N]
    = [true; false; false; false; false; false; false; false; false]
  ∧ Bits (string_to_binary [256%N]) ≠ spec_encode [256%N]
  ∧ is_ok (Stag.embed {| shape := [10; 10; 3]; ravel := replicate 300 0%Z |}
                      [256%N]) = true.
Proof. repeat split; done. Qed.

(** C6, amended. [string_to_binary] raises no error on any text: it
    concatenates, in character order, what [format(ord(c), '08b')] gives
    for each character. For a code point of at most 255 these are exactly
    its eight bits, most significant first, so a text of such characters
    gives 8 bits per character, as the specification's encoder does; for a
    code point above 255 they are its whole binary expansion, more than
    eight bits. *)
Theorem string_to_binary_bits (text : str) :
  string_to_binary text
  = flat_map (fun c => if (c <=? 255)%N then msb8 c else bin c) text
  ∧ (single_byte text →
     length (string_to_binary text) = 8 * length text
     ∧ Bits (string_to_binary text) = spec_encode text)
  ∧ (∀ c, (255 < c)%N → 8 < length (bin c) ∧ int2_digits (bin c) = c).
Proof.
  assert (string_to_binary text
          = flat_map (fun c => if (c <=? 255)%N then msb8 c else bin c) text)
    as Hflat.
  { unfold string_to_binary, ord. induction text as [|c text IH];
      [reflexivity|].
    simpl. rewrite IH. f_equal.
    destruct (N.leb_spec c 255).
    - apply format_08b_msb8. lia.
    - apply format_08b_wide. lia. }
  split; [exact Hflat|]. split.
  - intros Hsb. split; [by apply string_to_binary_length|].
    by rewrite string_to_binary_msb8, spec_encode_single_byte.
  - intros c Hc. split; [apply bin_length_wide; lia|apply int2_digits_bin].
Qed.

Lemma string_to_binary_bits_witness :
  single_byte (lit "Hi") ∧ (255 < 300)%N
  ∧ length (string_to_binary (lit "Hi")) = 8 * 2
  ∧ Bits (string_to_binary (lit "Hi")) = spec_encode (lit "Hi")
  ∧ 8 < length (bin 300).
Proof.
  assert (single_byte (lit "Hi")) as H
    by (unfold single_byte; repeat constructor).
  assert (255 < 300)%N as H' by reflexivity.
  destruct (string_to_binary_bits (lit "Hi")) as (_ & Hbytes & Hwide).
  destruct (Hbytes H) as [Hlen Hspec]. destruct (Hwide 300%N H') as [Hn _].
  repeat split; assumption.
Defined.

(** ** The claims about the embedder *)

Lemma overwrite_writes_low_bits (flat : list Z) (bs : bits) :
  writes_low_bits flat (overwrite flat bs) bs.
Proof.
  intros i sample bit Hs Hb.
  exists (set_lsb sample (Z.b2z bit)).
  split; [by apply overwrite_lookup_lt|]. split; [reflexivity|].
  split; [apply set_lsb_low_bit|]. intros k Hk. by apply set_lsb_high_bits.
Qed.

Lemma overwrite_keeps_rest (flat : list Z) (bs : bits) :
  length bs ≤ length flat → keeps_rest flat (overwrite flat bs) (length bs).
Proof. intros Hfit i Hi. by apply overwrite_lookup_ge. Qed.

(** C3. When the framed bits fit the carrier, embedding succeeds and
    sample [i] of the output, for every [i] below the number of framed
    bits, is [(carrier[i] & 0xFE) | bit i]: its low-order bit is the bit
    and its bits 1 to 7 are the carrier's. Both classes. *)
Theorem embed_write_formula (img : ndarray) (text : str) :
  (wf_ndarray img →
   length (string_to_binary (text ++ Stag.delimiter)) ≤ length (ravel img) →
   ∃ out, Stag.embed img text = Ok out
          ∧ writes_low_bits (ravel img) (ravel out)
              (string_to_binary (text ++ Stag.delimiter)))
  ∧ (wf_rgb img →
     length (string_to_binary (text ++ RGB.delimiter)) ≤ length (ravel img) →
     ∃ out, RGB.embed img text = Ok (RGB.Written out)
            ∧ writes_low_bits (ravel img) (ravel out)
                (string_to_binary (text ++ RGB.delimiter))).
Proof.
  split.
  - intros Hwf Hfit. eexists. split.
    + apply Stag_embed_ok; [done|]. destruct Hwf as [<- _]. done.
    + apply overwrite_writes_low_bits.
  - intros Hwf Hfit. eexists. split.
    + apply RGB_embed_ok; [done|]. destruct Hwf as [[<- _] _]. done.
    + apply overwrite_writes_low_bits.
Qed.

(** C4. When the framed bits fit the carrier, the output of embedding has
    the carrier's shape and number of samples, and every sample at or
    after the number of framed bits is the carrier's sample. Both
    classes. *)
Theorem embed_frame (img : ndarray) (text : str) :
  (wf_ndarray img →
   length (string_to_binary (text ++ Stag.delimiter)) ≤ length (ravel img) →
   ∃ out, Stag.embed img text = Ok out
          ∧ shape out = shape img
          ∧ length (ravel out) = length (ravel img)
          ∧ keeps_rest (ravel img) (ravel out)
              (length (string_to_binary (text ++ Stag.delimiter))))
  ∧ (wf_rgb img →
     length (string_to_binary (text ++ RGB.delimiter)) ≤ length (ravel img) →
     ∃ out, RGB.embed img text = Ok (RGB.Written out)
            ∧ shape out = shape img
            ∧ length (ravel out) = length (ravel img)
            ∧ keeps_rest (ravel img) (ravel out)
                (length (string_to_binary (text ++ RGB.delimiter)))).
Proof.
  split.
  - intros Hwf Hfit. eexists. split.
    + apply Stag_embed_ok; [done|]. destruct Hwf as [<- _]. done.
    + split; [reflexivity|]. simpl.
      split; [by apply overwrite_length|by apply overwrite_keeps_rest].
  - intros Hwf Hfit. eexists. split.
    + apply RGB_embed_ok; [done|]. destruct Hwf as [[<- _] _]. done.
    + split; [reflexivity|]. simpl.
      split; [by apply overwrite_length|by apply overwrite_keeps_rest].
Qed.

(** A carrier of [height * width] white RGB pixels. *)
Lemma white_wf (height width : nat) :
  wf_rgb {| shape := [height; width; 3];
            ravel := replicate (height * (width * (3 * 1))) 255%Z |}.
Proof.
  split; [split|by eexists _, _].
  - simpl. by rewrite length_replicate.
  - apply Forall_replicate. unfold uint8. lia.
Qed.

Lemma embed_write_formula_witness :
  let img := {| shape := [10; 10; 3];
                ravel := replicate (10 * (10 * (3 * 1))) 255%Z |} in
  (∃ out, Stag.embed img (lit "HELLO") = Ok out
          ∧ writes_low_bits (ravel img) (ravel out)
              (string_to_binary (lit "HELLO" ++ Stag.delimiter)))
  ∧ (∃ out, RGB.embed img (lit "HELLO") = Ok (RGB.Written out)
            ∧ writes_low_bits (ravel img) (ravel out)
                (string_to_binary (lit "HELLO" ++ RGB.delimiter))).
Proof.
  intros img.
  destruct (embed_write_formula img (lit "HELLO")) as [HA HB].
  split.
  - apply HA; [exact (proj1 (white_wf 10 10))|].
    apply Nat.leb_le. vm_compute. reflexivity.
  - apply HB; [exact (white_wf 10 10)|].
    apply Nat.leb_le. vm_compute. reflexivity.
Defined.

Lemma embed_frame_witness :
  let img := {| shape := [10; 10; 3];
                ravel := replicate (10 * (10 * (3 * 1))) 255%Z |} in
  (∃ out, Stag.embed img (lit "HELLO") = Ok out
          ∧ shape out = shape img
          ∧ length (ravel out) = length (ravel img)
          ∧ keeps_rest (ravel img) (ravel out)
              (length (string_to_binary (lit "HELLO" ++ Stag.delimiter))))
  ∧ (∃ out, RGB.embed img (lit "HELLO") = Ok (RGB.Written out)
            ∧ shape out = shape img
            ∧ length (ravel out) = length (ravel img)
            ∧ keeps_rest (ravel img) (ravel out)
                (length (string_to_binary (lit "HELLO" ++ RGB.delimiter)))).
Proof.
  intros img.
  destruct (embed_frame img (lit "HELLO")) as [HA HB].
  split.
  - apply HA; [exact (proj1 (white_wf 10 10))|].
    apply Nat.leb_le. vm_compute. reflexivity.
  - apply HB; [exact (white_wf 10 10)|].
    apply Nat.leb_le. vm_compute. reflexivity.
Defined.

(** ** The claims about extraction from an embedded carrier *)

(** Embedding [text], whose framed form reads [a ++ delimiter ++ tail],
    and extracting again gives [a], when the delimiter does not begin
    before the end of [a]. *)
Lemma Stag_embed_extract (img : ndarray) (text a tail : str) :
  wf_ndarray img → single_byte a →
  text ++ Stag.delimiter = a ++ Stag.delimiter ++ tail →
  length (string_to_binary (text ++ Stag.delimiter)) ≤ length (ravel img) →
  find (a ++ Stag.delimiter) Stag.delimiter = Z.of_nat (length a) →
  ∃ enc, Stag.embed img text = Ok enc ∧ Stag.extract enc = Ok a.
Proof.
  intros Hwf Ha Hframed Hfit Hfind. eexists. split.
  - apply Stag_embed_ok; [done|]. destruct Hwf as [<- _]. done.
  - apply (Stag_extract_framed _ a []
             (string_to_binary tail
              ++ lsbs (drop (length (string_to_binary
                                       (text ++ Stag.delimiter)))
                            (ravel img)))); [|done|constructor|done].
    simpl ravel. rewrite lsbs_overwrite by done.
    rewrite Hframed, app_nil_r, !app_assoc, !string_to_binary_app.
    by rewrite <- !app_assoc.
Qed.

Lemma RGB_embed_extract (img : ndarray) (text a tail : str) :
  wf_rgb img → single_byte a → a ≠ [] →
  text ++ RGB.delimiter = a ++ RGB.delimiter ++ tail →
  length (string_to_binary (text ++ RGB.delimiter)) ≤ length (ravel img) →
  find (a ++ RGB.delimiter) RGB.delimiter = Z.of_nat (length a) →
  ∃ enc, RGB.embed img text = Ok (RGB.Written enc)
         ∧ RGB.extract enc = Ok a.
Proof.
  intros Hwf Ha Hne Hframed Hfit Hfind. eexists. split.
  - apply RGB_embed_ok; [done|]. destruct Hwf as [[<- _] _]. done.
  - unfold RGB.extract.
    rewrite (RGB_scan_framed a []
               (string_to_binary tail
                ++ lsbs (drop (length (string_to_binary
                                         (text ++ RGB.delimiter)))
                              (ravel img))) Ha ltac:(constructor) Hfind).
    + by destruct a.
    + simpl ravel. rewrite lsbs_overwrite by done.
      rewrite Hframed, app_nil_r, !app_assoc, !string_to_binary_app.
      by rewrite <- !app_assoc.
Qed.

Lemma framed_length (a d : str) :
  single_byte a → single_byte d →
  length (string_to_binary (a ++ d)) = 8 * (length a + length d).
Proof.
  intros Ha Hd. rewrite string_to_binary_length, length_app; [done|].
  by apply Forall_app_2.
Qed.

(** C1, as the specification has it, fails on the code: a payload over
    the supported characters whose end, followed by the delimiter, spells
    the delimiter early is cut there. In [stag.py] the payload
    ["###END_OF_HIDDEN_DATA"] comes back as the empty string. *)
Lemma round_trip_counterexample :
  let carrier := {| shape := [10; 12; 3];
                    ravel := replicate (10 * (12 * (3 * 1))) 255%Z |} in
  let payload := lit "###END_OF_HIDDEN_DATA" in
  wf_rgb carrier ∧ single_byte payload
  ∧ 8 * (length payload + length Stag.delimiter) ≤ length (ravel carrier)
  ∧ Stag.embed carrier payload ≫= Stag.extract = Ok []
  ∧ Stag.embed carrier payload ≫= Stag.extract ≠ Ok payload.
Proof.
  intros carrier payload.
  split; [apply white_wf|].
  split; [unfold single_byte; repeat constructor|].
  split; [apply Nat.leb_le; vm_compute; reflexivity|].
  assert (Stag.embed carrier payload ≫= Stag.extract = Ok []) as E
    by (vm_compute; reflexivity).
  split; [exact E|]. rewrite E. discriminate.
Qed.

(** C1, amended. For every carrier with at least
    [8 * (len(payload) + len(delimiter))] samples and every payload of
    code points at most 255 such that the first place where the delimiter
    occurs in [payload + delimiter] is the end of the payload, embedding
    succeeds and extracting from the result returns the payload; for
    [sdfbhzdf.py] this is stated for non-empty payloads. *)
Theorem round_trip (img : ndarray) (payload : str) :
  single_byte payload →
  (wf_ndarray img →
   8 * (length payload + length Stag.delimiter) ≤ length (ravel img) →
   find (payload ++ Stag.delimiter) Stag.delimiter
   = Z.of_nat (length payload) →
   ∃ enc, Stag.embed img payload = Ok enc ∧ Stag.extract enc = Ok payload)
  ∧ (wf_rgb img →
     8 * (length payload + length RGB.delimiter) ≤ length (ravel img) →
     find (payload ++ RGB.delimiter) RGB.delimiter
     = Z.of_nat (length payload) →
     payload ≠ [] →
     ∃ enc, RGB.embed img payload = Ok (RGB.Written enc)
            ∧ RGB.extract enc = Ok payload).
Proof.
  intros Hsb. split.
  - intros Hwf Hfit Hfind.
    apply (Stag_embed_extract img payload payload []);
      [done|done|by rewrite app_nil_r| |done].
    by rewrite framed_length by (done || apply delimiter_single_byte).
  - intros Hwf Hfit Hfind Hne.
    apply (RGB_embed_extract img payload payload []);
      [done|done|done|by rewrite app_nil_r| |done].
    by rewrite framed_length by (done || apply RGB_delimiter_single_byte).
Qed.

Lemma round_trip_witness :
  let img := {| shape := [10; 10; 3];
                ravel := replicate (10 * (10 * (3 * 1))) 255%Z |} in
  (∃ enc, Stag.embed img (lit "HELLO") = Ok enc
          ∧ Stag.extract enc = Ok (lit "HELLO"))
  ∧ (∃ enc, RGB.embed img (lit "HELLO") = Ok (RGB.Written enc)
            ∧ RGB.extract enc = Ok (lit "HELLO")).
Proof.
  intros img.
  assert (single_byte (lit "HELLO")) as Hsb
    by (unfold single_byte; repeat constructor).
  destruct (round_trip img (lit "HELLO") Hsb) as [HA HB].
  split.
  - apply HA; [exact (proj1 (white_wf 10 10))| |reflexivity].
    apply Nat.leb_le. vm_compute. reflexivity.
  - apply HB; [exact (white_wf 10 10)| |reflexivity|discriminate].
    apply Nat.leb_le. vm_compute. reflexivity.
Defined.

(** C8, as the specification has it, fails on the code: [a] need not
    contain the delimiter for [a + delimiter] to contain it early. In
    [stag.py], with [a = "###END_OF_HIDDEN_DATA"] and [b] empty, the
    extracted text is the empty string, not [a]. *)
Lemma delimiter_truncation_counterexample :
  let carrier := {| shape := [8; 23; 3];
                    ravel := replicate (8 * (23 * (3 * 1))) 255%Z |} in
  let a := lit "###END_OF_HIDDEN_DATA" in
  let b := lit "" in
  let payload := a ++ Stag.delimiter ++ b in
  wf_rgb carrier ∧ single_byte payload
  ∧ find a Stag.delimiter = (-1)%Z
  ∧ 8 * (length payload + length Stag.delimiter) ≤ length (ravel carrier)
  ∧ Stag.embed carrier payload ≫= Stag.extract = Ok []
  ∧ Stag.embed carrier payload ≫= Stag.extract ≠ Ok a.
Proof.
  intros carrier a b payload.
  split; [apply white_wf|].
  split; [unfold single_byte; repeat constructor|].
  split; [reflexivity|].
  split; [apply Nat.leb_le; vm_compute; reflexivity|].
  assert (Stag.embed carrier payload ≫= Stag.extract = Ok []) as E
    by (vm_compute; reflexivity).
  split; [exact E|]. rewrite E. discriminate.
Qed.

(** C8, amended. For every payload [a + delimiter + b], with [a] of code
    points at most 255 and such that the first place where the delimiter
    occurs in [a + delimiter] is the end of [a], and every carrier that
    holds the framed payload, embedding succeeds and extraction returns
    [a]; for [sdfbhzdf.py] this is stated for non-empty [a]. *)
Theorem delimiter_truncation (img : ndarray) (a b : str) :
  single_byte a →
  (wf_ndarray img →
   find (a ++ Stag.delimiter) Stag.delimiter = Z.of_nat (length a) →
   length (string_to_binary ((a ++ Stag.delimiter ++ b) ++ Stag.delimiter))
   ≤ length (ravel img) →
   ∃ enc, Stag.embed img (a ++ Stag.delimiter ++ b) = Ok enc
          ∧ Stag.extract enc = Ok a)
  ∧ (wf_rgb img →
     find (a ++ RGB.delimiter) RGB.delimiter = Z.of_nat (length a) →
     length (string_to_binary ((a ++ RGB.delimiter ++ b) ++ RGB.delimiter))
     ≤ length (ravel img) →
     a ≠ [] →
     ∃ enc, RGB.embed img (a ++ RGB.delimiter ++ b) = Ok (RGB.Written enc)
            ∧ RGB.extract enc = Ok a).
Proof.
  intros Hsb. split.
  - intros Hwf Hfind Hfit.
    apply (Stag_embed_extract img _ a (b ++ Stag.delimiter));
      [done|done|by rewrite <- !app_assoc|done|done].
  - intros Hwf Hfind Hfit Hne.
    apply (RGB_embed_extract img _ a (b ++ RGB.delimiter));
      [done|done|done|by rewrite <- !app_assoc|done|done].
Qed.

Lemma delimiter_truncation_witness :
  let img := {| shape := [10; 20; 3];
                ravel := replicate (10 * (20 * (3 * 1))) 255%Z |} in
  (∃ enc, Stag.embed img (lit "ab" ++ Stag.delimiter ++ lit "cd") = Ok enc
          ∧ Stag.extract enc = Ok (lit "ab"))
  ∧ (∃ enc, RGB.embed img (lit "ab" ++ RGB.delimiter ++ lit "cd")
            = Ok (RGB.Written enc)
            ∧ RGB.extract enc = Ok (lit "ab")).
Proof.
  intros img.
  assert (single_byte (lit "ab")) as Hsb
    by (unfold single_byte; repeat constructor).
  destruct (delimiter_truncation img (lit "ab") (lit "cd") Hsb) as [HA HB].
  split.
  - apply HA; [exact (proj1 (white_wf 10 20))|reflexivity|].
    apply Nat.leb_le. vm_compute. reflexivity.
  - apply HB; [exact (white_wf 10 20)|reflexivity| |discriminate].
    apply Nat.leb_le. vm_compute. reflexivity.
Defined.

(** ** The claim about the capacity check *)

(** The two scenarios of the specification, on [sdfbhzdf.py]: "HELLO"
    needs 112 of the 300 bits of a 10 x 10 image and comes back; fifty
    characters need 472 bits and a 2 x 2 image has 12. *)
Example scenario_hello :
  ∃ enc, RGB.embed {| shape := [10; 10; 3]; ravel := replicate 300 128%Z |}
                   (lit "HELLO") = Ok (RGB.Written enc)
         ∧ length (string_to_binary (lit "HELLO" ++ RGB.delimiter)) = 112
         ∧ RGB.extract enc = Ok (lit "HELLO").
Proof. eexists. repeat split; reflexivity. Qed.

Example scenario_too_long :
  RGB.embed {| shape := [2; 2; 3]; ravel := replicate 12 128%Z |}
            (lit "01234567890123456789012345678901234567890123456789")
  = Ok (RGB.TooLong 472 12).
Proof. reflexivity. Qed.

(** C2, as the specification has it, fails on [sdfbhzdf.py]: the method
    reports a message that is too long through [_log] only, so with
    [verbose] off a framed length of capacity + 1 makes it return [False]
    and print nothing. Two carriers with different figures (88 bits for 87
    samples, 112 bits for 111) end alike: [False], no output, no file
    changed; nothing carries the required and available counts. *)
Lemma capacity_exceeded_silent_counterexample :
  let verify : ndarray → bool := fun _ => true in
  let read : ndarray → option ndarray := Some in
  let write : string → ndarray → option ndarray := fun _ a => Some a in
  let white height width :=
    {| shape := [height; width; 3];
       ravel := replicate (height * (width * (3 * 1))) 255%Z |} in
  let holding img : world ndarray := World {["carrier.png" := img]} [] in
  (wf_rgb (white 1 29)
   ∧ length (string_to_binary (lit "hi" ++ RGB.delimiter))
     = size (white 1 29) + 1
   ∧ RGB.hide_text_in_image verify read write false
       "carrier.png" (lit "hi") "out.png" (holding (white 1 29))
     = (Ok false, World {["carrier.png" := white 1 29]} []))
  ∧ (wf_rgb (white 1 37)
     ∧ length (string_to_binary (lit "HELLO" ++ RGB.delimiter))
       = size (white 1 37) + 1
     ∧ RGB.hide_text_in_image verify read write false
         "carrier.png" (lit "HELLO") "out.png" (holding (white 1 37))
       = (Ok false, World {["carrier.png" := white 1 37]} [])).
Proof.
  intros verify read write white holding.
  split; (split; [apply white_wf|]); (split; [reflexivity|]).
  - apply (RGB_hide_too_long verify read write false
             (holding (white 1 29)) "carrier.png" "out.png"
             (white 1 29) (white 1 29) (lit "hi") 1 29 3);
      [apply lookup_singleton_eq|reflexivity|reflexivity|reflexivity
      |reflexivity|apply Nat.ltb_lt; reflexivity].
  - apply (RGB_hide_too_long verify read write false
             (holding (white 1 37)) "carrier.png" "out.png"
             (white 1 37) (white 1 37) (lit "HELLO") 1 37 3);
      [apply lookup_singleton_eq|reflexivity|reflexivity|reflexivity
      |reflexivity|apply Nat.ltb_lt; reflexivity].
Qed.

(** C2, amended. With [required] the number of framed bits and
    [size img] the capacity (the product of the dimensions, one bit per
    sample): when [required = size img] the embedding succeeds and, once
    the image library has written the file, the method returns [True];
    when [required = size img + 1] the method returns [False] and leaves
    every file as it was: the carrier is untouched and no output is
    written. [stag.py] reports that failure in the [ValueError] it raises
    and prints, whose message carries [required] and [size img];
    [sdfbhzdf.py] hands a line with both figures to [_log], which prints
    it only when [verbose] is set. Both classes. *)
Theorem capacity_boundary {blob : Type}
    (cv2_imread : blob → option ndarray)
    (cv2_imwrite : string → ndarray → option blob)
    (pil_verify : blob → bool)
    (pil_open_rgb : blob → option ndarray)
    (pil_save : string → ndarray → option blob)
    (verbose : bool) (w : world blob) (image_path output_path : string)
    (contents : blob) (img : ndarray) (text : str) :
  files w !! image_path = Some contents →
  (cv2_imread contents = Some img → wf_ndarray img →
   let required := length (string_to_binary (text ++ Stag.delimiter)) in
   (required = size img →
    ∃ enc, Stag.embed img text = Ok enc
      ∧ ∀ saved, cv2_imwrite output_path enc = Some saved →
          Stag.hide_text_in_image cv2_imread cv2_imwrite
            image_path text output_path w
          = (Ok true,
             World (<[output_path := saved]> (files w))
                   (stdout w ++ [PTextHidden output_path;
                                 PHiddenChars (length text)])))
   ∧ (required = size img + 1 →
      Stag.embed img text
      = Raise (ValueError (MImageTooSmall required (size img)))
      ∧ Stag.hide_text_in_image cv2_imread cv2_imwrite
          image_path text output_path w
        = (Ok false,
           World (files w)
                 (stdout w ++ [PErrorHiding
                                 (MImageTooSmall required (size img))]))))
  ∧ (endswith_any (lower image_path) [".png"; ".jpg"; ".jpeg"] = true →
     pil_verify contents = true → pil_open_rgb contents = Some img →
     wf_rgb img →
     let required := length (string_to_binary (text ++ RGB.delimiter)) in
     (required = size img →
      ∃ enc, RGB.embed img text = Ok (RGB.Written enc)
        ∧ ∀ saved, pil_save output_path enc = Some saved →
            RGB.hide_text_in_image pil_verify pil_open_rgb pil_save verbose
              image_path text output_path w
            = (Ok true,
               World (<[output_path := saved]> (files w))
                     (stdout w
                      ++ logged verbose
                           [LValidImage image_path;
                            LHidden output_path (length text) required])))
     ∧ (required = size img + 1 →
        RGB.embed img text = Ok (RGB.TooLong required (size img))
        ∧ RGB.hide_text_in_image pil_verify pil_open_rgb pil_save verbose
            image_path text output_path w
          = (Ok false,
             World (files w)
                   (stdout w
                    ++ logged verbose
                         [LValidImage image_path;
                          LMessageTooLong required (size img)])))).
Proof.
  intros Hfile. split.
  - intros Hread Hwf required. split.
    + intros Heq. eexists. split; [apply Stag_embed_ok; [done|]; lia|].
      intros saved Hsave.
      eapply Stag_hide_fits; eauto. fold required. lia.
    + intros Heq. split.
      * rewrite Stag_embed_too_small by (fold required; lia). done.
      * erewrite Stag_hide_too_small by (eauto || fold required; lia). done.
  - intros Hext Hverify Hopen Hwf required.
    destruct Hwf as [Hnd (height & width & Hshape)].
    pose proof (wf_rgb_size _ _ _ Hshape) as Hcap.
    assert (wf_rgb img) as Hwf by (split; eauto).
    split.
    + intros Heq. eexists. split; [apply RGB_embed_ok; [done|]; lia|].
      intros saved Hsave.
      eapply RGB_hide_fits; eauto. fold required. lia.
    + intros Heq. rewrite Hcap. split.
      * erewrite RGB_embed_too_long by (eauto || fold required; lia). done.
      * erewrite RGB_hide_too_long by (eauto || fold required; lia). done.
Qed.

Lemma capacity_boundary_witness :
  let read : ndarray → option ndarray := Some in
  let write : string → ndarray → option ndarray := fun _ a => Some a in
  let verify : ndarray → bool := fun _ => true in
  let white height width :=
    {| shape := [height; width; 3];
       ravel := replicate (height * (width * (3 * 1))) 255%Z |} in
  let holding img : world ndarray := World {["carrier.png" := img]} [] in
  (∃ enc, Stag.embed (white 8 8) (lit "") = Ok enc
     ∧ Stag.hide_text_in_image read write "carrier.png" (lit "") "out.png"
         (holding (white 8 8))
       = (Ok true,
          World (<["out.png" := enc]> {["carrier.png" := white 8 8]})
                [PTextHidden "out.png"; PHiddenChars 0]))
  ∧ Stag.hide_text_in_image read write "carrier.png" (lit "hi") "out.png"
      (holding (white 3 23))
    = (Ok false,
       World {["carrier.png" := white 3 23]}
             [PErrorHiding (MImageTooSmall 208 207)])
  ∧ (∃ enc, RGB.embed (white 4 6) (lit "") = Ok (RGB.Written enc)
       ∧ RGB.hide_text_in_image verify read write true
           "carrier.png" (lit "") "out.png" (holding (white 4 6))
         = (Ok true,
            World (<["out.png" := enc]> {["carrier.png" := white 4 6]})
                  [LValidImage "carrier.png"; LHidden "out.png" 0 72]))
  ∧ RGB.hide_text_in_image verify read write true
      "carrier.png" (lit "hi") "out.png" (holding (white 1 29))
    = (Ok false,
       World {["carrier.png" := white 1 29]}
             [LValidImage "carrier.png"; LMessageTooLong 88 87]).
Proof.
  intros read write verify white holding.
  assert (∀ img, files (holding img) !! "carrier.png" = Some img) as Hfile
    by (intros img; apply lookup_singleton_eq).
  split; [|split; [|split]].
  - destruct (capacity_boundary read write verify read write true
                (holding (white 8 8)) "carrier.png" "out.png"
                (white 8 8) (white 8 8) (lit "") (Hfile _)) as [HA _].
    destruct (HA eq_refl (proj1 (white_wf 8 8))) as [Hfits _].
    destruct (Hfits eq_refl) as (enc & Henc & Hhide).
    exists enc. split; [exact Henc|]. exact (Hhide enc eq_refl).
  - destruct (capacity_boundary read write verify read write true
                (holding (white 3 23)) "carrier.png" "out.png"
                (white 3 23) (white 3 23) (lit "hi") (Hfile _)) as [HA _].
    destruct (HA eq_refl (proj1 (white_wf 3 23))) as [_ Hshort].
    exact (proj2 (Hshort eq_refl)).
  - destruct (capacity_boundary read write verify read write true
                (holding (white 4 6)) "carrier.png" "out.png"
                (white 4 6) (white 4 6) (lit "") (Hfile _)) as [_ HB].
    destruct (HB eq_refl eq_refl eq_refl (white_wf 4 6)) as [Hfits _].
    destruct (Hfits eq_refl) as (enc & Henc & Hhide).
    exists enc. split; [exact Henc|]. exact (Hhide enc eq_refl).
  - destruct (capacity_boundary read write verify read write true
                (holding (white 1 29)) "carrier.png" "out.png"
                (white 1 29) (white 1 29) (lit "hi") (Hfile _)) as [_ HB].
    destruct (HB eq_refl eq_refl eq_refl (white_wf 1 29)) as [_ Hshort].
    exact (proj2 (Hshort eq_refl)).
Defined.

(** ** The claims about a carrier without hidden data *)

Lemma int2_digits_bound (l : bits) :
  (int2_digits l < 2 ^ N.of_nat (length l))%N.
Proof.
  induction l as [|b l IH] using rev_ind; [reflexivity|].
  rewrite int2_digits_snoc, length_app. simpl length.
  replace (length l + 1) with (S (length l)) by lia.
  rewrite Nat2N.inj_succ, N.pow_succ_r'. destruct b; simpl N.b2n; lia.
Qed.

(** [stag.py] reports a carrier without the delimiter as such. *)
Lemma Stag_extract_no_delimiter (img : ndarray) :
  no_delimiter Stag.delimiter (ravel img) →
  Stag.extract img = Ok Stag.no_hidden_text.
Proof.
  intros Hno. unfold Stag.extract. cbv zeta.
  rewrite binary_to_string_decode. cbn [mbind result_bind].
  rewrite find_none; [reflexivity|].
  intros j Hj.
  destruct (starts_with Stag.delimiter (drop j (decode (lsbs (ravel img)))))
    eqn:E; [exfalso|reflexivity].
  apply starts_with_prefix in E as [r Hr].
  apply (Hno j).
  rewrite (string_to_binary_length Stag.delimiter)
    by apply delimiter_single_byte.
  rewrite (bits_decode_split (lsbs (ravel img))) at 1.
  assert (length (drop j (decode (lsbs (ravel img))))
          = length Stag.delimiter + length r) as Hlen
    by (by rewrite Hr, length_app).
  rewrite length_drop in Hlen.
  rewrite slice_string_to_binary by (apply decode_single_byte || lia).
  by rewrite Hr, take_app_length.
Qed.

(** [sdfbhzdf.py] on a carrier without the delimiter: the loop runs to
    the end and every group of bits, the last one possibly shorter than
    eight, becomes a character of the message. *)
Lemma extract_loop_no_delimiter (binary_data delimiter_bits : bits)
    (m j : nat) (message : str) :
  (∀ k, slice binary_data (8 * k) (8 * k + length delimiter_bits)
        ≠ delimiter_bits) →
  8 * (j + m) < length binary_data + 8 →
  RGB.extract_loop binary_data delimiter_bits
    (map (fun i => 8 * i) (seq j m)) message
  = Ok (message
        ++ map (fun i => int2_digits (slice binary_data (8 * i) (8 * i + 8)))
               (seq j m)).
Proof.
  intros Hno. revert j message.
  induction m as [|m IH]; intros j message Hlen;
    [by rewrite app_nil_r|].
  cbn [seq map RGB.extract_loop].
  rewrite (bool_decide_eq_false_2 _ (Hno j)), andb_false_r.
  assert (0 < length (slice binary_data (8 * j) (8 * j + 8)) ≤ 8) as Hbyte
    by (unfold slice; rewrite length_take, length_drop; lia).
  unfold int2 at 1.
  destruct (slice binary_data (8 * j) (8 * j + 8)) as [|b0 byte] eqn:E;
    [simpl in Hbyte; lia|].
  cbn [mbind result_bind]. unfold chr at 1.
  pose proof (int2_digits_bound (b0 :: byte)) as Hbound.
  assert (2 ^ N.of_nat (length (b0 :: byte)) ≤ 2 ^ 8)%N
    by (apply N.pow_le_mono_r; lia).
  change (2 ^ 8)%N with 256%N in *.
  destruct (N.leb_spec (int2_digits (b0 :: byte)) 1114111); [|lia].
  cbn [mbind result_bind]. rewrite IH by lia.
  by rewrite <- app_assoc.
Qed.

Lemma RGB_extract_no_delimiter (pixels : ndarray) :
  no_delimiter RGB.delimiter (ravel pixels) → ravel pixels ≠ [] →
  ∃ c garbage,
    RGB.extract pixels = Ok (c :: garbage)
    ∧ c :: garbage
      = map (fun i => int2_digits
                        (slice (lsbs (ravel pixels)) (8 * i) (8 * i + 8)))
            (seq 0 ((length (ravel pixels) + 7) / 8)).
Proof.
  intros Hno Hne. unfold RGB.extract, RGB.scan. cbv zeta.
  assert (length (lsbs (ravel pixels)) = length (ravel pixels)) as Hlen
    by apply length_map.
  rewrite range_step_8, extract_loop_no_delimiter; [|exact Hno|].
  - rewrite Hlen. cbn [mbind result_bind app].
    assert (0 < (length (ravel pixels) + 7) / 8) as Hpos.
    { apply Nat.div_str_pos. destruct (ravel pixels); [done|simpl; lia]. }
    destruct ((length (ravel pixels) + 7) / 8) as [|q]; [lia|].
    simpl. eauto.
  - pose proof (Nat.div_mod_eq (length (lsbs (ravel pixels)) + 7) 8).
    pose proof (Nat.mod_upper_bound (length (lsbs (ravel pixels)) + 7) 8).
    lia.
Qed.

(** C5 fails in [sdfbhzdf.py]. The four white pixels of a 2 x 2 RGB image
    carry no delimiter; [extract_text_from_image] does not report "No
    hidden message found." but returns the two characters its twelve
    low-order bits decode to, while [stag.py] reports the no-data text on
    the same carrier. *)
Theorem RGB_extract_returns_garbage :
  let carrier := {| shape := [2; 2; 3];
                    ravel := replicate (2 * (2 * (3 * 1))) 255%Z |} in
  wf_rgb carrier
  ∧ no_delimiter RGB.delimiter (ravel carrier)
  ∧ RGB.extract carrier = Ok [255%N; 15%N]
  ∧ RGB.extract carrier ≠ Ok RGB.no_hidden_message
  ∧ Stag.extract carrier = Ok Stag.no_hidden_text.
Proof.
  intros carrier. split; [apply white_wf|]. split.
  - intros k Heq.
    apply (f_equal length) in Heq. unfold slice in Heq.
    rewrite length_take, length_drop in Heq.
    change (length (lsbs (ravel carrier))) with 12 in Heq.
    change (length (string_to_binary RGB.delimiter)) with 72 in Heq. lia.
  - split; [reflexivity|]. split; [discriminate|reflexivity].
Qed.

(** [stag.py] tells an embedded empty payload from no data. *)
Lemma Stag_empty_payload (img : ndarray) :
  wf_ndarray img → 8 * length Stag.delimiter ≤ length (ravel img) →
  ∃ enc, Stag.embed img [] = Ok enc ∧ Stag.extract enc = Ok []
         ∧ Ok [] ≠ Ok Stag.no_hidden_text.
Proof.
  intros Hwf Hfit.
  destruct (Stag_embed_extract img [] [] []) as (enc & Henc & Hext);
    [done|constructor|reflexivity| |reflexivity|].
  - by rewrite string_to_binary_length by apply delimiter_single_byte.
  - exists enc. repeat split; [done|done|discriminate].
Qed.

(** [sdfbhzdf.py] does not: the scan of a carrier holding the empty
    payload ends with an empty message, which the method takes for the
    absence of data. *)
Lemma RGB_empty_payload (img : ndarray) :
  wf_rgb img → 8 * length RGB.delimiter ≤ length (ravel img) →
  ∃ enc, RGB.embed img [] = Ok (RGB.Written enc)
         ∧ RGB.extract enc = Ok RGB.no_hidden_message.
Proof.
  intros Hwf Hfit. eexists. split.
  - apply RGB_embed_ok; [done|]. destruct Hwf as [[<- _] _].
    by rewrite string_to_binary_length by apply RGB_delimiter_single_byte.
  - unfold RGB.extract.
    rewrite (RGB_scan_framed [] []
               (lsbs (drop (length (string_to_binary ([] ++ RGB.delimiter)))
                           (ravel img)))
               ltac:(constructor) ltac:(constructor) ltac:(reflexivity)).
    + reflexivity.
    + cbn [ravel]. rewrite lsbs_overwrite.
      * by rewrite app_nil_r.
      * by rewrite string_to_binary_length
          by apply RGB_delimiter_single_byte.
Qed.

(** C7 fails in [sdfbhzdf.py]. Embedding the empty string into a 4 x 6
    white RGB image succeeds, and extracting from the result returns "No
    hidden message found.", the value of the no-data case, where the
    claim asks for the empty string; [stag.py] returns the empty string
    on its 8 x 8 carrier. *)
Theorem RGB_empty_payload_reads_as_no_data :
  let white height width :=
    {| shape := [height; width; 3];
       ravel := replicate (height * (width * (3 * 1))) 255%Z |} in
  (∃ enc, RGB.embed (white 4 6) [] = Ok (RGB.Written enc)
          ∧ RGB.extract enc = Ok RGB.no_hidden_message
          ∧ RGB.extract enc ≠ Ok [])
  ∧ (∃ enc, Stag.embed (white 8 8) [] = Ok enc
            ∧ Stag.extract enc = Ok []).
Proof.
  intros white. split.
  - destruct (RGB_empty_payload (white 4 6) (white_wf 4 6))
      as (enc & Henc & Hext); [apply Nat.leb_le; reflexivity|].
    exists enc. repeat split; [done|done|]. rewrite Hext. discriminate.
  - destruct (Stag_empty_payload (white 8 8) (proj1 (white_wf 8 8)))
      as (enc & Henc & Hext & _); [apply Nat.leb_le; reflexivity|].
    by exists enc.
Qed.

(** * Further properties of the code *)

(** ** The bit codec beyond single-byte texts *)

Lemma format_08b_length_ge (c : N) : 8 ≤ length (format_08b c).
Proof.
  destruct (N.lt_ge_cases c 256) as [Hc|Hc].
  - by rewrite format_08b_length_byte.
  - rewrite format_08b_wide by done. pose proof (bin_length_wide c Hc). lia.
Qed.

Lemma string_to_binary_length_ge (text : str) :
  8 * length text ≤ length (string_to_binary text).
Proof.
  induction text as [|c text IH]; [done|].
  change (string_to_binary (c :: text))
    with (format_08b c ++ string_to_binary text).
  rewrite length_app. pose proof (format_08b_length_ge c). simpl length. lia.
Qed.

Lemma string_to_binary_length_single_byte (text : str) :
  length (string_to_binary text) = 8 * length text → single_byte text.
Proof.
  induction text as [|c text IH]; [constructor|].
  change (string_to_binary (c :: text))
    with (format_08b c ++ string_to_binary text).
  rewrite length_app. simpl length. intros Hlen.
  pose proof (format_08b_length_ge c).
  pose proof (string_to_binary_length_ge text).
  constructor; [|apply IH; lia].
  destruct (N.lt_ge_cases c 256) as [Hc|Hc]; [done|].
  rewrite format_08b_wide in Hlen by done.
  pose proof (bin_length_wide c Hc). lia.
Qed.

(** Every text needs at least eight bits per character, and exactly eight
    per character when, and only when, all its code points are at most
    255. *)
Theorem string_to_binary_width (text : str) :
  8 * length text ≤ length (string_to_binary text)
  ∧ (length (string_to_binary text) = 8 * length text ↔ single_byte text).
Proof.
  split; [apply string_to_binary_length_ge|]. split.
  - apply string_to_binary_length_single_byte.
  - apply string_to_binary_length.
Qed.

(** The codec gives a text back exactly when all its code points are at
    most 255: a text with a wider character is never what
    [binary_to_string(string_to_binary(t))] returns. *)
Theorem codec_recovers_iff_single_byte (t : str) :
  binary_to_string (string_to_binary t) = Ok t ↔ single_byte t.
Proof.
  split.
  - rewrite binary_to_string_decode. intros [= Heq].
    rewrite <- Heq. apply decode_single_byte.
  - intros Ht. rewrite binary_to_string_decode. f_equal.
    rewrite <- (app_nil_r (string_to_binary t)).
    rewrite decode_string_to_binary by done. apply app_nil_r.
Qed.

(** Encoding what [binary_to_string] decoded gives the bits back, up to the
    last complete group of eight. *)
Theorem string_to_binary_of_decoded (binary : bits) :
  ∃ text, binary_to_string binary = Ok text
          ∧ string_to_binary text
            = take (length binary - length binary mod 8) binary.
Proof.
  exists (decode binary).
  split; [apply binary_to_string_decode|apply string_to_binary_decode].
Qed.

(** ** The embedder: what it keeps of the carrier *)

Lemma set_lsb_near (sample : Z) (b : bool) :
  uint8 sample → (Z.abs (set_lsb sample (Z.b2z b) - sample) ≤ 1)%Z.
Proof.
  intros [Hlo Hhi].
  assert (forallb (fun n =>
            (Z.abs (set_lsb (Z.of_nat n) (Z.b2z b) - Z.of_nat n) <=? 1)%Z)
            (seq 0 256) = true) as Hall
    by (destruct b; vm_compute; reflexivity).
  rewrite forallb_forall in Hall.
  specialize (Hall (Z.to_nat sample)).
  rewrite Z2Nat.id in Hall by lia.
  apply Z.leb_le, Hall, in_seq. lia.
Qed.

Lemma set_lsb_idemp (sample : Z) (b : bool) :
  set_lsb (set_lsb sample (Z.b2z b)) (Z.b2z b) = set_lsb sample (Z.b2z b).
Proof.
  unfold set_lsb. f_equal.
  rewrite Z.land_lor_distr_l, <- Z.land_assoc.
  change (Z.land 254 254) with 254%Z.
  replace (Z.land (Z.b2z b) 254) with 0%Z by (by destruct b).
  apply Z.lor_0_r.
Qed.

Lemma overwrite_lookup (flat : list Z) (bs : bits) (i : nat) (a v : Z) :
  length bs ≤ length flat →
  flat !! i = Some a → overwrite flat bs !! i = Some v →
  v = a ∨ ∃ bit, bs !! i = Some bit ∧ v = set_lsb a (Z.b2z bit).
Proof.
  intros Hfit Ha Hv.
  destruct (bs !! i) as [bit|] eqn:Hb.
  - rewrite (overwrite_lookup_lt _ _ _ _ _ Ha Hb) in Hv.
    injection Hv as <-. eauto.
  - apply lookup_ge_None in Hb.
    rewrite overwrite_lookup_ge, Ha in Hv by done.
    injection Hv as <-. by left.
Qed.

Lemma overwrite_near (flat : list Z) (bs : bits) (i : nat) (a v : Z) :
  length bs ≤ length flat → Forall uint8 flat →
  flat !! i = Some a → overwrite flat bs !! i = Some v →
  (Z.abs (v - a) ≤ 1)%Z.
Proof.
  intros Hfit Hflat Ha Hv.
  destruct (overwrite_lookup _ _ _ _ _ Hfit Ha Hv) as [->|(bit & _ & ->)].
  - lia.
  - apply set_lsb_near. exact (Forall_lookup_1 _ _ _ _ Hflat Ha).
Qed.

Lemma overwrite_idemp (flat : list Z) (bs : bits) :
  length bs ≤ length flat →
  overwrite (overwrite flat bs) bs = overwrite flat bs.
Proof.
  intros Hfit. apply list_eq. intros i.
  destruct (bs !! i) as [bit|] eqn:Hb.
  - pose proof (lookup_lt_Some _ _ _ Hb) as Hi.
    destruct (lookup_lt_is_Some_2 flat i ltac:(lia)) as [a Ha].
    pose proof (overwrite_lookup_lt _ _ _ _ _ Ha Hb) as Hv.
    rewrite (overwrite_lookup_lt _ _ _ _ _ Hv Hb), Hv.
    by rewrite set_lsb_idemp.
  - apply lookup_ge_None in Hb.
    rewrite !overwrite_lookup_ge by (by rewrite ?overwrite_length). done.
Qed.

Lemma overwrite_wf (img : ndarray) (bs : bits) :
  wf_ndarray img → length bs ≤ length (ravel img) →
  wf_ndarray {| shape := shape img; ravel := overwrite (ravel img) bs |}.
Proof.
  intros [Hsize Hflat] Hfit. split.
  - simpl. by rewrite overwrite_length.
  - by apply overwrite_uint8.
Qed.

Lemma overwrite_wf_rgb (img : ndarray) (bs : bits) :
  wf_rgb img → length bs ≤ length (ravel img) →
  wf_rgb {| shape := shape img; ravel := overwrite (ravel img) bs |}.
Proof. intros [Hwf Hshape] Hfit. split; [by apply overwrite_wf|done]. Qed.

(** Embedding keeps the array well formed and of the carrier's shape
    (same dimensions, same number of samples, every sample still in
    0..255) and moves no sample by more than one. Both classes. *)
Theorem embed_keeps_samples_close (img : ndarray) (text : str) :
  (wf_ndarray img →
   length (string_to_binary (text ++ Stag.delimiter)) ≤ length (ravel img) →
   ∃ out, Stag.embed img text = Ok out
          ∧ shape out = shape img
          ∧ length (ravel out) = length (ravel img)
          ∧ wf_ndarray out
          ∧ ∀ i a v, ravel img !! i = Some a → ravel out !! i = Some v →
                     (Z.abs (v - a) ≤ 1)%Z)
  ∧ (wf_rgb img →
     length (string_to_binary (text ++ RGB.delimiter)) ≤ length (ravel img) →
     ∃ out, RGB.embed img text = Ok (RGB.Written out)
            ∧ shape out = shape img
            ∧ length (ravel out) = length (ravel img)
            ∧ wf_rgb out
            ∧ ∀ i a v, ravel img !! i = Some a → ravel out !! i = Some v →
                       (Z.abs (v - a) ≤ 1)%Z).
Proof.
  split.
  - intros Hwf Hfit. eexists. split.
    + apply Stag_embed_ok; [done|]. destruct Hwf as [<- _]. done.
    + split; [reflexivity|]. split; [by apply overwrite_length|].
      split; [by apply overwrite_wf|].
      intros i a v Ha Hv. destruct Hwf as [_ Hflat].
      by apply (overwrite_near _ _ i a v Hfit Hflat).
  - intros Hwf Hfit. eexists. split.
    + apply RGB_embed_ok; [done|]. destruct Hwf as [[<- _] _]. done.
    + split; [reflexivity|]. split; [by apply overwrite_length|].
      split; [by apply overwrite_wf_rgb|].
      intros i a v Ha Hv. destruct Hwf as [[_ Hflat] _].
      by apply (overwrite_near _ _ i a v Hfit Hflat).
Qed.

Lemma embed_keeps_samples_close_witness :
  let img := {| shape := [10; 10; 3];
                ravel := replicate (10 * (10 * (3 * 1))) 255%Z |} in
  (∃ out, Stag.embed img (lit "HELLO") = Ok out
          ∧ shape out = shape img
          ∧ length (ravel out) = length (ravel img)
          ∧ wf_ndarray out
          ∧ ∀ i a v, ravel img !! i = Some a → ravel out !! i = Some v →
                     (Z.abs (v - a) ≤ 1)%Z)
  ∧ (∃ out, RGB.embed img (lit "HELLO") = Ok (RGB.Written out)
            ∧ shape out = shape img
            ∧ length (ravel out) = length (ravel img)
            ∧ wf_rgb out
            ∧ ∀ i a v, ravel img !! i = Some a → ravel out !! i = Some v →
                       (Z.abs (v - a) ≤ 1)%Z).
Proof.
  intros img.
  destruct (embed_keeps_samples_close img (lit "HELLO")) as [HA HB].
  split.
  - apply HA; [exact (proj1 (white_wf 10 10))|].
    apply Nat.leb_le. vm_compute. reflexivity.
  - apply HB; [exact (white_wf 10 10)|].
    apply Nat.leb_le. vm_compute. reflexivity.
Defined.

(** Embedding the same text a second time changes nothing: the encoded
    image is a fixed point of the embedder. Both classes. *)
Theorem embed_idempotent (img : ndarray) (text : str) :
  (wf_ndarray img →
   length (string_to_binary (text ++ Stag.delimiter)) ≤ length (ravel img) →
   ∃ enc, Stag.embed img text = Ok enc ∧ Stag.embed enc text = Ok enc)
  ∧ (wf_rgb img →
     length (string_to_binary (text ++ RGB.delimiter)) ≤ length (ravel img) →
     ∃ enc, RGB.embed img text = Ok (RGB.Written enc)
            ∧ RGB.embed enc text = Ok (RGB.Written enc)).
Proof.
  split.
  - intros Hwf Hfit. eexists. split.
    + apply Stag_embed_ok; [done|]. destruct Hwf as [<- _]. done.
    + pose proof (overwrite_wf _ _ Hwf Hfit) as Hwf'.
      rewrite Stag_embed_ok; [|done|].
      * simpl. by rewrite overwrite_idemp.
      * destruct Hwf' as [<- _]. simpl. by rewrite overwrite_length.
  - intros Hwf Hfit. eexists. split.
    + apply RGB_embed_ok; [done|]. destruct Hwf as [[<- _] _]. done.
    + pose proof (overwrite_wf_rgb _ _ Hwf Hfit) as Hwf'.
      rewrite RGB_embed_ok; [|done|].
      * simpl. by rewrite overwrite_idemp.
      * destruct Hwf' as [[<- _] _]. simpl. by rewrite overwrite_length.
Qed.

Lemma embed_idempotent_witness :
  let img := {| shape := [10; 10; 3];
                ravel := replicate (10 * (10 * (3 * 1))) 255%Z |} in
  (∃ enc, Stag.embed img (lit "HELLO") = Ok enc
          ∧ Stag.embed enc (lit "HELLO") = Ok enc)
  ∧ (∃ enc, RGB.embed img (lit "HELLO") = Ok (RGB.Written enc)
            ∧ RGB.embed enc (lit "HELLO") = Ok (RGB.Written enc)).
Proof.
  intros img.
  destruct (embed_idempotent img (lit "HELLO")) as [HA HB].
  split.
  - apply HA; [exact (proj1 (white_wf 10 10))|].
    apply Nat.leb_le. vm_compute. reflexivity.
  - apply HB; [exact (white_wf 10 10)|].
    apply Nat.leb_le. vm_compute. reflexivity.
Defined.

(** ** Which texts the embedder accepts *)

Lemma fits_chars (n d cap : nat) : 8 * (n + d) ≤ cap ↔ n + d ≤ cap / 8.
Proof.
  pose proof (Nat.div_mod_eq cap 8).
  pose proof (Nat.mod_upper_bound cap 8). lia.
Qed.

(** [stag.py] embeds a text exactly when its framed bits fit the samples
    of the image; for a text of code points at most 255 that is when
    [len(text) + 24 <= img.size // 8], the 24 being the delimiter. A text
    that does not fit raises the "Image too small" error. *)
Theorem Stag_embed_accepts_iff (img : ndarray) (text : str) :
  wf_ndarray img →
  ((∃ enc, Stag.embed img text = Ok enc)
   ↔ length (string_to_binary (text ++ Stag.delimiter)) ≤ size img)
  ∧ (single_byte text →
     ((∃ enc, Stag.embed img text = Ok enc)
      ↔ length text + 24 ≤ size img / 8))
  ∧ ((∃ enc, Stag.embed img text = Ok enc)
     ∨ Stag.embed img text
       = Raise (ValueError
                  (MImageTooSmall
                     (length (string_to_binary (text ++ Stag.delimiter)))
                     (size img)))).
Proof.
  intros Hwf.
  assert ((∃ enc, Stag.embed img text = Ok enc)
          ↔ length (string_to_binary (text ++ Stag.delimiter)) ≤ size img)
    as Hiff.
  { split.
    - intros [enc Henc].
      destruct (decide (length (string_to_binary (text ++ Stag.delimiter))
                        ≤ size img)) as [|Hbig]; [done|].
      rewrite Stag_embed_too_small in Henc by lia. discriminate.
    - intros Hfit. eexists. by apply Stag_embed_ok. }
  split; [exact Hiff|]. split.
  - intros Hsb. rewrite Hiff.
    rewrite framed_length by (done || apply delimiter_single_byte).
    change (length Stag.delimiter) with 24. apply fits_chars.
  - destruct (decide (length (string_to_binary (text ++ Stag.delimiter))
                      ≤ size img)) as [Hfit|Hbig].
    + left. by apply Hiff.
    + right. apply Stag_embed_too_small. lia.
Qed.

Lemma Stag_embed_accepts_iff_witness :
  let img := {| shape := [8; 8; 3];
                ravel := replicate (8 * (8 * (3 * 1))) 255%Z |} in
  (∃ enc, Stag.embed img (lit "") = Ok enc)
  ∧ Stag.embed img (lit "x") = Raise (ValueError (MImageTooSmall 200 192)).
Proof.
  intros img.
  pose proof (proj1 (white_wf 8 8)) as Hwf.
  split.
  - destruct (Stag_embed_accepts_iff img (lit "") Hwf) as (_ & Hchars & _).
    apply (Hchars ltac:(constructor)). apply Nat.leb_le. reflexivity.
  - destruct (Stag_embed_accepts_iff img (lit "x") Hwf)
      as (Hbits & _ & [Hok|Hraise]).
    + apply Hbits in Hok. apply Nat.leb_le in Hok. discriminate Hok.
    + exact Hraise.
Defined.

(** ** Embedding over an earlier message *)

(** Embedding a second text into an image that already holds one replaces
    it: extraction returns the second text, whatever the first one was.
    The second text is over code points at most 255 and ends where the
    delimiter first occurs in [text + delimiter] (and is non-empty for
    [sdfbhzdf.py]); both framed texts fit the carrier. *)
Theorem embed_replaces_message (img : ndarray) (first second : str) :
  single_byte second →
  (wf_ndarray img →
   length (string_to_binary (first ++ Stag.delimiter)) ≤ length (ravel img) →
   8 * (length second + length Stag.delimiter) ≤ length (ravel img) →
   find (second ++ Stag.delimiter) Stag.delimiter
   = Z.of_nat (length second) →
   ∃ enc1 enc2, Stag.embed img first = Ok enc1
                ∧ Stag.embed enc1 second = Ok enc2
                ∧ Stag.extract enc2 = Ok second)
  ∧ (wf_rgb img →
     length (string_to_binary (first ++ RGB.delimiter)) ≤ length (ravel img) →
     8 * (length second + length RGB.delimiter) ≤ length (ravel img) →
     find (second ++ RGB.delimiter) RGB.delimiter
     = Z.of_nat (length second) →
     second ≠ [] →
     ∃ enc1 enc2, RGB.embed img first = Ok (RGB.Written enc1)
                  ∧ RGB.embed enc1 second = Ok (RGB.Written enc2)
                  ∧ RGB.extract enc2 = Ok second).
Proof.
  intros Hsb. split.
  - intros Hwf Hfit1 Hfit2 Hfind.
    pose proof (overwrite_wf _ _ Hwf Hfit1) as Hwf1.
    destruct (Stag_embed_extract
                {| shape := shape img;
                   ravel := overwrite (ravel img)
                              (string_to_binary (first ++ Stag.delimiter)) |}
                second second []) as (enc2 & Henc2 & Hext);
      [done|done|by rewrite app_nil_r| |done|].
    + cbn [ravel]. rewrite overwrite_length by done.
      by rewrite framed_length by (done || apply delimiter_single_byte).
    + eexists _, enc2. split; [|done].
      apply Stag_embed_ok; [done|]. destruct Hwf as [<- _]. done.
  - intros Hwf Hfit1 Hfit2 Hfind Hne.
    pose proof (overwrite_wf_rgb _ _ Hwf Hfit1) as Hwf1.
    destruct (RGB_embed_extract
                {| shape := shape img;
                   ravel := overwrite (ravel img)
                              (string_to_binary (first ++ RGB.delimiter)) |}
                second second []) as (enc2 & Henc2 & Hext);
      [done|done|done|by rewrite app_nil_r| |done|].
    + cbn [ravel]. rewrite overwrite_length by done.
      by rewrite framed_length by (done || apply RGB_delimiter_single_byte).
    + eexists _, enc2. split; [|done].
      apply RGB_embed_ok; [done|]. destruct Hwf as [[<- _] _]. done.
Qed.

Lemma embed_replaces_message_witness :
  let img := {| shape := [10; 20; 3];
                ravel := replicate (10 * (20 * (3 * 1))) 255%Z |} in
  (∃ enc1 enc2, Stag.embed img (lit "first message") = Ok enc1
                ∧ Stag.embed enc1 (lit "2nd") = Ok enc2
                ∧ Stag.extract enc2 = Ok (lit "2nd"))
  ∧ (∃ enc1 enc2, RGB.embed img (lit "first message") = Ok (RGB.Written enc1)
                  ∧ RGB.embed enc1 (lit "2nd") = Ok (RGB.Written enc2)
                  ∧ RGB.extract enc2 = Ok (lit "2nd")).
Proof.
  intros img.
  assert (single_byte (lit "2nd")) as Hsb
    by (unfold single_byte; repeat constructor).
  destruct (embed_replaces_message img (lit "first message") (lit "2nd") Hsb)
    as [HA HB].
  split.
  - apply HA; [exact (proj1 (white_wf 10 20))| | |reflexivity];
      apply Nat.leb_le; vm_compute; reflexivity.
  - apply HB; [exact (white_wf 10 20)| | |reflexivity|discriminate];
      apply Nat.leb_le; vm_compute; reflexivity.
Defined.

(** ** What extraction can return *)

Lemma range_step_8_lt (n : nat) : Forall (fun i => i < n) (range_step 0 n 8).
Proof.
  rewrite range_step_8. apply Forall_forall. intros i Hi.
  apply list_elem_of_In, in_map_iff in Hi as (k & <- & Hk).
  apply in_seq in Hk.
  pose proof (Nat.div_mod_eq (n + 7) 8).
  pose proof (Nat.mod_upper_bound (n + 7) 8). lia.
Qed.

(** The scanning loop of [sdfbhzdf.py] never fails, and every character
    it appends is below 256. *)
Lemma extract_loop_single_byte (binary_data delimiter_bits : bits)
    (indices : list nat) (message : str) :
  Forall (fun i => i < length binary_data) indices → single_byte message →
  ∃ message', RGB.extract_loop binary_data delimiter_bits indices message
              = Ok message'
              ∧ single_byte message'.
Proof.
  intros Hidx. revert message.
  induction Hidx as [|i indices Hi _ IH]; intros message Hmsg; [by eexists|].
  cbn [RGB.extract_loop].
  destruct (_ && _); [by eexists|].
  assert (0 < length (slice binary_data i (i + 8)) ≤ 8) as Hbyte
    by (unfold slice; rewrite length_take, length_drop; lia).
  unfold int2 at 1.
  destruct (slice binary_data i (i + 8)) as [|b0 byte] eqn:E;
    [simpl in Hbyte; lia|].
  cbn [mbind result_bind]. unfold chr at 1.
  pose proof (int2_digits_bound (b0 :: byte)) as Hbound.
  assert (2 ^ N.of_nat (length (b0 :: byte)) ≤ 2 ^ 8)%N
    by (apply N.pow_le_mono_r; lia).
  change (2 ^ 8)%N with 256%N in *.
  destruct (N.leb_spec (int2_digits (b0 :: byte)) 1114111); [|lia].
  cbn [mbind result_bind]. apply IH.
  apply Forall_app_2; [done|]. constructor; [lia|constructor].
Qed.

Lemma Stag_extract_single_byte (img : ndarray) :
  ∃ text, Stag.extract img = Ok text ∧ single_byte text.
Proof.
  unfold Stag.extract. cbv zeta.
  rewrite binary_to_string_decode. cbn [mbind result_bind].
  case_bool_decide.
  - eexists. split; [reflexivity|].
    unfold slice. apply Forall_take, Forall_drop, decode_single_byte.
  - eexists. split; [reflexivity|].
    unfold single_byte. repeat constructor.
Qed.

Lemma RGB_extract_single_byte (pixels : ndarray) :
  ∃ text, RGB.extract pixels = Ok text ∧ single_byte text.
Proof.
  unfold RGB.extract, RGB.scan. cbv zeta.
  destruct (extract_loop_single_byte (lsbs (ravel pixels))
              (string_to_binary RGB.delimiter)
              (range_step 0 (length (lsbs (ravel pixels))) 8) [])
    as (message & -> & Hsb); [apply range_step_8_lt|constructor|].
  cbn [mbind result_bind]. destruct message as [|c message].
  - eexists. split; [reflexivity|]. unfold single_byte. repeat constructor.
  - by eexists.
Qed.

(** Extraction never fails on an image, whatever its samples, and the
    text it returns (the hidden text or the no-data text) has only code
    points below 256. Both classes. *)
Theorem extract_returns_single_byte (img : ndarray) :
  (∃ text, Stag.extract img = Ok text ∧ single_byte text)
  ∧ (∃ text, RGB.extract img = Ok text ∧ single_byte text).
Proof.
  split; [apply Stag_extract_single_byte|apply RGB_extract_single_byte].
Qed.

(** A payload with a code point above 255 is accepted but never
    recovered: when its framed bits fit the carrier, embedding succeeds
    and extraction returns something else. Both classes. *)
Theorem wide_payload_never_recovered (img : ndarray) (payload : str) :
  ¬ single_byte payload →
  (wf_ndarray img →
   length (string_to_binary (payload ++ Stag.delimiter))
   ≤ length (ravel img) →
   ∃ enc, Stag.embed img payload = Ok enc ∧ Stag.extract enc ≠ Ok payload)
  ∧ (wf_rgb img →
     length (string_to_binary (payload ++ RGB.delimiter))
     ≤ length (ravel img) →
     ∃ enc, RGB.embed img payload = Ok (RGB.Written enc)
            ∧ RGB.extract enc ≠ Ok payload).
Proof.
  intros Hwide. split.
  - intros Hwf Hfit. eexists. split.
    + apply Stag_embed_ok; [done|]. destruct Hwf as [<- _]. done.
    + intros Hext.
      destruct (Stag_extract_single_byte
                  {| shape := shape img;
                     ravel := overwrite (ravel img)
                                (string_to_binary
                                   (payload ++ Stag.delimiter)) |})
        as (text & Htext & Hsb).
      rewrite Hext in Htext. by injection Htext as <-.
  - intros Hwf Hfit. eexists. split.
    + apply RGB_embed_ok; [done|]. destruct Hwf as [[<- _] _]. done.
    + intros Hext.
      destruct (RGB_extract_single_byte
                  {| shape := shape img;
                     ravel := overwrite (ravel img)
                                (string_to_binary
                                   (payload ++ RGB.delimiter)) |})
        as (text & Htext & Hsb).
      rewrite Hext in Htext. by injection Htext as <-.
Qed.

Lemma wide_payload_never_recovered_witness :
  let img := {| shape := [10; 10; 3];
                ravel := replicate (10 * (10 * (3 * 1))) 255%Z |} in
  (∃ enc, Stag.embed img [956%N] = Ok enc
          ∧ Stag.extract enc ≠ Ok [956%N])
  ∧ (∃ enc, RGB.embed img [956%N] = Ok (RGB.Written enc)
            ∧ RGB.extract enc ≠ Ok [956%N]).
Proof.
  intros img.
  assert (¬ single_byte [956%N]) as Hwide
    by (intros H; apply Forall_cons_1 in H as [H _]; discriminate H).
  destruct (wide_payload_never_recovered img [956%N] Hwide) as [HA HB].
  split.
  - apply HA; [exact (proj1 (white_wf 10 10))|].
    apply Nat.leb_le. vm_compute. reflexivity.
  - apply HB; [exact (white_wf 10 10)|].
    apply Nat.leb_le. vm_compute. reflexivity.
Defined.

Lemma find_prefix_none (sub s : str) (k : nat) :
  sub ≠ [] → k ≤ length s → none_before sub s k →
  find (take k s) sub = (-1)%Z.
Proof.
  intros Hsub Hk Hnone. apply find_none. intros j Hj.
  rewrite length_take in Hj.
  destruct (starts_with sub (drop j (take k s))) eqn:E; [exfalso|done].
  apply starts_with_prefix in E as [r Hr].
  destruct (decide (j < k)) as [Hlt|Hge].
  - specialize (Hnone j Hlt).
    rewrite <- (take_drop k s), drop_app_le in Hnone
      by (rewrite length_take; lia).
    rewrite Hr, <- app_assoc, starts_with_refl_app in Hnone. done.
  - rewrite drop_ge in Hr by (rewrite length_take; lia).
    destruct sub; [done|discriminate Hr].
Qed.

(** What [stag.py] extracts never contains the delimiter: the text is cut
    at the delimiter's first occurrence, and the no-data text does not
    contain it either. *)
Theorem Stag_extract_without_delimiter (img : ndarray) :
  ∃ text, Stag.extract img = Ok text
          ∧ find text Stag.delimiter = (-1)%Z.
Proof.
  unfold Stag.extract. cbv zeta.
  rewrite binary_to_string_decode. cbn [mbind result_bind].
  set (decoded := decode (lsbs (ravel img))).
  case_bool_decide as Hpos.
  - eexists. split; [reflexivity|].
    unfold find in *.
    destruct (find_from_spec Stag.delimiter decoded 0)
      as [[Hf _]|(k & Hk & Hf & _ & Hnone)]; [done|].
    rewrite Hf. unfold slice.
    rewrite Nat.sub_0_r, drop_0, Z.add_0_l, Nat2Z.id.
    by apply find_prefix_none.
  - eexists. split; reflexivity.
Qed.

(** ** The methods and the files *)

Section Files.
Context {blob : Type}.
Variable cv2_imread : blob → option ndarray.
Variable cv2_imwrite : string → ndarray → option blob.
Variable pil_verify : blob → bool.
Variable pil_open_rgb : blob → option ndarray.
Variable pil_save : string → ndarray → option blob.
Variable pil_open : blob → option pil_image.
Variable verbose : bool.

Lemma world_eta (w : world blob) : World (files w) (stdout w) = w.
Proof. by destruct w. Qed.

Lemma Stag_load_spec (w : world blob) (image_path : string) :
  Stag.load cv2_imread image_path w
  = (match files w !! image_path with
     | None => Raise (ValueError (MFileDoesNotExist image_path))
     | Some contents =>
         match cv2_imread contents with
         | None => Raise (ValueError (MCouldNotLoad image_path))
         | Some img => Ok img
         end
     end, w).
Proof.
  unfold Stag.load, mbind, io_mbind, io_bind, isfile, read_file, raise, io_ret.
  destruct (files w !! image_path) as [contents|] eqn:Hfile.
  - rewrite bool_decide_eq_true_2 by eauto. cbn [negb].
    rewrite Hfile. cbn [mbind option_bind].
    by destruct (cv2_imread contents).
  - rewrite bool_decide_eq_false_2 by (by intros [? ?]). reflexivity.
Qed.

(** [hide_text_in_image] of [stag.py] lets no exception escape. The
    three checks that come before any write (the file exists, it decodes,
    the framed text fits) make it return [False], print exactly one
    "Error hiding text" line and change no file. When the save succeeds
    it returns [True] and the only file changed is the one at the output
    path. When the save fails it returns [False]; what the attempt left
    behind is not part of the statement. *)
Theorem Stag_hide_outcome (w : world blob)
    (image_path output_path : string) (text : str) :
  ∃ ok w',
    Stag.hide_text_in_image cv2_imread cv2_imwrite
      image_path text output_path w = (Ok ok, w')
    ∧ match files w !! image_path ≫= cv2_imread with
      | None =>
          ok = false ∧ files w' = files w
          ∧ ∃ m, stdout w' = stdout w ++ [PErrorHiding m]
      | Some img =>
          match Stag.embed img text with
          | Raise e =>
              ok = false ∧ files w' = files w
              ∧ stdout w' = stdout w ++ [PErrorHiding (exn_msg e)]
          | Ok enc =>
              match cv2_imwrite output_path enc with
              | Some saved =>
                  ok = true
                  ∧ files w' = <[output_path := saved]> (files w)
              | None => ok = false
              end
          end
      end.
Proof.
  unfold Stag.hide_text_in_image, try_except, mbind at 1, io_mbind.
  unfold io_bind at 1. rewrite Stag_load_spec.
  destruct (files w !! image_path) as [contents|] eqn:Hfile;
    cbn [mbind option_bind];
    [|eexists false, _; split; [reflexivity|]; simpl; eauto].
  destruct (cv2_imread contents) as [img|] eqn:Hread;
    [|eexists false, _; split; [reflexivity|]; simpl; eauto].
  unfold mbind at 1, io_mbind, io_bind at 1, lift.
  destruct (Stag.embed img text) as [enc|e] eqn:Hembed;
    [|eexists false, _; split; [reflexivity|]; simpl; eauto].
  destruct (cv2_imwrite output_path enc) as [saved|] eqn:Hsave;
    [|eexists false, _; split; [reflexivity|]; simpl; eauto].
  eexists true, _. split; [reflexivity|]. by split.
Qed.

Lemma RGB_log_spec (l : line) (w : world blob) :
  RGB._log (blob:=blob) verbose l w
  = (Ok tt, World (files w) (stdout w ++ logged verbose [l])).
Proof.
  unfold RGB._log, logged, print, io_ret. destruct verbose; [done|].
  by rewrite app_nil_r, world_eta.
Qed.

Lemma RGB_validate_image_run (w : world blob) (image_path : string) :
  ∃ l, RGB.validate_image pil_verify verbose image_path w
       = (Ok (valid_image pil_verify (files w) image_path),
          World (files w) (stdout w ++ logged verbose [l])).
Proof.
  unfold RGB.validate_image, valid_image, try_except, mbind, io_mbind.
  unfold io_bind at 1, isfile.
  destruct (files w !! image_path) as [contents|] eqn:Hfile.
  - rewrite bool_decide_eq_true_2 by eauto. cbn [negb].
    destruct (endswith_any _ _) eqn:Hext; cbn [negb andb].
    + unfold io_bind at 1, read_file. rewrite Hfile.
      destruct (pil_verify contents) eqn:Hverify.
      * unfold io_bind. rewrite RGB_log_spec. by eexists.
      * unfold raise, io_bind. rewrite RGB_log_spec. by eexists.
    + unfold io_bind. rewrite RGB_log_spec. by eexists.
  - rewrite bool_decide_eq_false_2 by (by intros [? ?]). cbn [negb].
    unfold io_bind. rewrite RGB_log_spec. by eexists.
Qed.

(** [validate_image] lets no exception escape, changes no file, and
    accepts a path exactly when the file exists, its name ends in ".png",
    ".jpg" or ".jpeg" in any case, and the image verifies. *)
Theorem RGB_validate_image_spec (w : world blob) (image_path : string) :
  ∃ l, RGB.validate_image pil_verify verbose image_path w
       = (Ok (valid_image pil_verify (files w) image_path),
          World (files w) (stdout w ++ logged verbose [l])).
Proof. apply RGB_validate_image_run. Qed.

Lemma RGB_open_rgb_spec (w : world blob) (image_path : string) :
  RGB.open_rgb pil_open_rgb image_path w
  = (match files w !! image_path ≫= pil_open_rgb with
     | Some pixels => Ok pixels
     | None => Raise (OSError MIo)
     end, w).
Proof.
  unfold RGB.open_rgb, mbind at 1, io_mbind, io_bind, read_file, raise, io_ret.
  by destruct (files w !! image_path ≫= pil_open_rgb).
Qed.

(** [hide_text_in_image] of [sdfbhzdf.py] lets no exception escape. When
    [validate_image] refuses the path, the image cannot be opened, the
    message is too long or the embedding raises, it returns [False] and
    changes no file: all of these come before any write. When the save
    succeeds it returns [True] and the only file changed is the one at
    the output path. When the save fails it returns [False]; what the
    attempt left behind is not part of the statement. *)
Theorem RGB_hide_outcome (w : world blob)
    (image_path output_path : string) (text : str) :
  ∃ ok w',
    RGB.hide_text_in_image pil_verify pil_open_rgb pil_save verbose
      image_path text output_path w = (Ok ok, w')
    ∧ if valid_image pil_verify (files w) image_path
      then match files w !! image_path ≫= pil_open_rgb with
           | None => ok = false ∧ files w' = files w
           | Some pixels =>
               match RGB.embed pixels text with
               | Ok (RGB.Written enc) =>
                   match pil_save output_path enc with
                   | Some saved =>
                       ok = true
                       ∧ files w' = <[output_path := saved]> (files w)
                   | None => ok = false
                   end
               | _ => ok = false ∧ files w' = files w
               end
           end
      else ok = false ∧ files w' = files w.
Proof.
  unfold RGB.hide_text_in_image, try_except, mbind at 1, io_mbind.
  unfold io_bind at 1.
  destruct (RGB_validate_image_run w image_path) as [l ->].
  destruct (valid_image pil_verify (files w) image_path) eqn:Hvalid;
    cbn [negb]; [|by eexists false, _].
  unfold mbind at 1, io_mbind, io_bind at 1. rewrite RGB_open_rgb_spec.
  cbn [files].
  destruct (files w !! image_path ≫= pil_open_rgb) as [pixels|] eqn:Hopen.
  2:{ unfold mbind, io_mbind, io_bind. rewrite RGB_log_spec.
      by eexists false, _. }
  unfold mbind at 1, io_mbind, io_bind at 1, lift.
  destruct (RGB.embed pixels text) as [[needs capacity|enc]|e] eqn:Hembed.
  - unfold mbind, io_mbind, io_bind. rewrite RGB_log_spec.
    by eexists false, _.
  - destruct (pil_save output_path enc) as [saved|] eqn:Hsave.
    + unfold mbind, io_mbind, io_bind, write_file. rewrite RGB_log_spec.
      by eexists true, _.
    + unfold raise, mbind, io_mbind, io_bind. rewrite RGB_log_spec.
      by eexists false, _.
  - unfold mbind, io_mbind, io_bind. rewrite RGB_log_spec.
    by eexists false, _.
Qed.

(** [extract_text_from_image] of [stag.py] lets no exception escape and
    changes no file. It returns [None], after printing one error line,
    exactly when the path is missing or the file cannot be decoded;
    otherwise it returns the text extracted from the image and prints
    nothing. *)
Theorem Stag_extract_text_outcome (w : world blob) (image_path : string) :
  ∃ r w',
    Stag.extract_text_from_image cv2_imread image_path w = (Ok r, w')
    ∧ files w' = files w
    ∧ match files w !! image_path ≫= cv2_imread with
      | Some img => ∃ text, Stag.extract img = Ok text
                            ∧ r = Some text ∧ w' = w
      | None => r = None
                ∧ ∃ m, stdout w' = stdout w ++ [PErrorExtracting m]
      end.
Proof.
  unfold Stag.extract_text_from_image, try_except, mbind at 1, io_mbind.
  unfold io_bind at 1. rewrite Stag_load_spec.
  destruct (files w !! image_path) as [contents|] eqn:Hfile;
    cbn [mbind option_bind].
  2:{ eexists None, _. split; [reflexivity|]. simpl. eauto. }
  destruct (cv2_imread contents) as [img|] eqn:Hread.
  2:{ eexists None, _. split; [reflexivity|]. simpl. eauto. }
  destruct (Stag_extract_single_byte img) as (text & Htext & _).
  unfold mbind, io_mbind, io_bind, lift, io_ret. rewrite Htext.
  eexists (Some text), w. repeat split. by exists text.
Qed.

Lemma RGB_scan_ok (pixels : ndarray) :
  ∃ message, RGB.scan pixels = Ok message.
Proof.
  unfold RGB.scan. cbv zeta.
  destruct (extract_loop_single_byte (lsbs (ravel pixels))
              (string_to_binary RGB.delimiter)
              (range_step 0 (length (lsbs (ravel pixels))) 8) [])
    as (message & -> & _); [apply range_step_8_lt|constructor|].
  by eexists.
Qed.

Lemma RGB_extract_text_run (w : world blob) (image_path : string) :
  ∃ r w',
    RGB.extract_text_from_image pil_verify pil_open_rgb verbose
      image_path w = (Ok r, w')
    ∧ files w' = files w
    ∧ if valid_image pil_verify (files w) image_path
      then match files w !! image_path ≫= pil_open_rgb with
           | Some pixels => ∃ text, RGB.extract pixels = Ok text
                                    ∧ r = RGB.Text text
           | None => r = RGB.ErrorExtractingText MIo
           end
      else r = RGB.InvalidImageFile image_path.
Proof.
  unfold RGB.extract_text_from_image, try_except, mbind at 1, io_mbind.
  unfold io_bind at 1.
  destruct (RGB_validate_image_run w image_path) as [l ->].
  destruct (valid_image pil_verify (files w) image_path) eqn:Hvalid;
    cbn [negb]; [|by eexists _, _].
  unfold mbind at 1, io_mbind, io_bind at 1. rewrite RGB_open_rgb_spec.
  cbn [files].
  destruct (files w !! image_path ≫= pil_open_rgb) as [pixels|] eqn:Hopen;
    [|by eexists _, _].
  unfold mbind at 1, io_mbind, io_bind at 1, lift.
  destruct (RGB_scan_ok pixels) as [message Hscan]. rewrite Hscan.
  unfold RGB.extract. rewrite Hscan. cbn [mbind result_bind].
  destruct message as [|c message];
    unfold mbind, io_mbind, io_bind; rewrite RGB_log_spec;
    eexists _, _; (split; [reflexivity|]); (split; [reflexivity|]);
    by eexists.
Qed.

(** [extract_text_from_image] of [sdfbhzdf.py] lets no exception escape
    and changes no file. For a path that [validate_image] refuses it
    returns the "Invalid image file" text; for a valid file that cannot be
    opened, the error text; otherwise the text extracted from the
    pixels. *)
Theorem RGB_extract_text_outcome (w : world blob) (image_path : string) :
  ∃ r w',
    RGB.extract_text_from_image pil_verify pil_open_rgb verbose
      image_path w = (Ok r, w')
    ∧ files w' = files w
    ∧ if valid_image pil_verify (files w) image_path
      then match files w !! image_path ≫= pil_open_rgb with
           | Some pixels => ∃ text, RGB.extract pixels = Ok text
                                    ∧ r = RGB.Text text
           | None => r = RGB.ErrorExtractingText MIo
           end
      else r = RGB.InvalidImageFile image_path.
Proof. apply RGB_extract_text_run. Qed.

(** Through the files, [stag.py]: with an image library that writes
    the output path and reads back what it wrote, hiding a text of code
    points at most 255 that fits and ends where the delimiter first
    occurs returns [True], and extracting from the output file then
    returns that text. *)
Theorem Stag_hide_then_extract (w : world blob)
    (image_path output_path : string) (contents : blob) (img : ndarray)
    (payload : str) :
  files w !! image_path = Some contents → cv2_imread contents = Some img →
  wf_ndarray img → single_byte payload →
  8 * (length payload + length Stag.delimiter) ≤ length (ravel img) →
  find (payload ++ Stag.delimiter) Stag.delimiter
  = Z.of_nat (length payload) →
  (∀ enc, ∃ saved, cv2_imwrite output_path enc = Some saved
                   ∧ cv2_imread saved = Some enc) →
  ∃ w1 w2,
    Stag.hide_text_in_image cv2_imread cv2_imwrite
      image_path payload output_path w = (Ok true, w1)
    ∧ Stag.extract_text_from_image cv2_imread output_path w1
      = (Ok (Some payload), w2).
Proof.
  intros Hfile Hread Hwf Hsb Hfit Hfind Hlossless.
  destruct (Stag_embed_extract img payload payload [])
    as (enc & Henc & Hext); [done|done|by rewrite app_nil_r| |done|].
  { by rewrite framed_length by (done || apply delimiter_single_byte). }
  destruct (Hlossless enc) as (saved & Hsave & Hback).
  eexists _, _. split.
  - unfold Stag.hide_text_in_image, try_except, mbind, io_mbind.
    unfold io_bind at 1. rewrite Stag_load_spec, Hfile, Hread.
    unfold io_bind at 1, lift. rewrite Henc, Hsave.
    unfold io_bind, write_file, print, io_ret. reflexivity.
  - unfold Stag.extract_text_from_image, try_except, mbind, io_mbind.
    unfold io_bind at 1. rewrite Stag_load_spec. cbn [files].
    rewrite lookup_insert_eq, Hback.
    unfold io_bind, lift, io_ret. rewrite Hext. reflexivity.
Qed.

(** Through the files, [sdfbhzdf.py]: the same, for a non-empty text and
    an output path whose name ends in a supported extension. *)
Theorem RGB_hide_then_extract (w : world blob)
    (image_path output_path : string) (contents : blob) (pixels : ndarray)
    (payload : str) :
  files w !! image_path = Some contents →
  valid_image pil_verify (files w) image_path = true →
  pil_open_rgb contents = Some pixels → wf_rgb pixels →
  single_byte payload → payload ≠ [] →
  8 * (length payload + length RGB.delimiter) ≤ length (ravel pixels) →
  find (payload ++ RGB.delimiter) RGB.delimiter
  = Z.of_nat (length payload) →
  endswith_any (lower output_path) [".png"; ".jpg"; ".jpeg"] = true →
  (∀ enc, ∃ saved, pil_save output_path enc = Some saved
                   ∧ pil_verify saved = true
                   ∧ pil_open_rgb saved = Some enc) →
  ∃ w1 w2,
    RGB.hide_text_in_image pil_verify pil_open_rgb pil_save verbose
      image_path payload output_path w = (Ok true, w1)
    ∧ RGB.extract_text_from_image pil_verify pil_open_rgb verbose
        output_path w1 = (Ok (RGB.Text payload), w2).
Proof.
  intros Hfile Hvalid Hopen Hwf Hsb Hne Hfit Hfind Hext Hlossless.
  assert (length (string_to_binary (payload ++ RGB.delimiter))
          ≤ length (ravel pixels)) as Hbits
    by (by rewrite framed_length
          by (done || apply RGB_delimiter_single_byte)).
  set (enc := {| shape := shape pixels;
                 ravel := overwrite (ravel pixels)
                            (string_to_binary (payload ++ RGB.delimiter)) |}).
  assert (RGB.extract enc = Ok payload) as Hextract.
  { destruct (RGB_embed_extract pixels payload payload [])
      as (enc' & Henc & Hextract);
      [done|done|done|by rewrite app_nil_r|done|done|].
    rewrite RGB_embed_ok in Henc by (done || by destruct Hwf as [[<- _] _]).
    by injection Henc as <-. }
  destruct (Hlossless enc) as (saved & Hsave & Hverify & Hback).
  assert (endswith_any (lower image_path) [".png"; ".jpg"; ".jpeg"] = true
          ∧ pil_verify contents = true) as [Hext_in Hverify_in].
  { unfold valid_image in Hvalid. rewrite Hfile in Hvalid.
    by apply andb_true_iff in Hvalid. }
  pose proof (RGB_hide_fits pil_verify pil_open_rgb pil_save verbose w
                image_path output_path contents pixels payload saved
                Hfile Hext_in Hverify_in Hopen Hwf) as Hhide.
  rewrite Hhide; [|by destruct Hwf as [[<- _] _]|done].
  match goal with |- ∃ w1 w2, (_, ?w) = _ ∧ _ =>
    destruct (RGB_extract_text_run w output_path)
      as (r & w2 & Hrun & _ & Hr); exists w, w2
  end.
  split; [reflexivity|]. rewrite Hrun. f_equal. f_equal.
  unfold valid_image in Hr. cbn [files] in Hr.
  rewrite lookup_insert_eq, Hext, Hverify in Hr.
  cbn [andb mbind option_bind] in Hr. rewrite Hback in Hr.
  destruct Hr as (text & Htext & ->).
  rewrite Hextract in Htext. by injection Htext as <-.
Qed.

(** [hide_text_in_image] of [sdfbhzdf.py] does not look at the name of the
    output path, [extract_text_from_image] does. Whenever the image
    library saves the encoded image under an output name without a
    supported extension (a premise: the library takes some such names
    and refuses others), the method returns [True] and the file is
    there, yet extracting from that file returns the "Invalid image file"
    text. *)
Theorem RGB_hidden_but_refused (w : world blob)
    (image_path output_path : string) (contents saved : blob)
    (pixels : ndarray) (text : str) :
  files w !! image_path = Some contents →
  valid_image pil_verify (files w) image_path = true →
  pil_open_rgb contents = Some pixels → wf_rgb pixels →
  length (string_to_binary (text ++ RGB.delimiter)) ≤ length (ravel pixels) →
  pil_save output_path
    {| shape := shape pixels;
       ravel := overwrite (ravel pixels)
                  (string_to_binary (text ++ RGB.delimiter)) |}
  = Some saved →
  endswith_any (lower output_path) [".png"; ".jpg"; ".jpeg"] = false →
  ∃ w1 w2,
    RGB.hide_text_in_image pil_verify pil_open_rgb pil_save verbose
      image_path text output_path w = (Ok true, w1)
    ∧ files w1 !! output_path = Some saved
    ∧ RGB.extract_text_from_image pil_verify pil_open_rgb verbose
        output_path w1 = (Ok (RGB.InvalidImageFile output_path), w2).
Proof.
  intros Hfile Hvalid Hopen Hwf Hfit Hsave Hext.
  assert (endswith_any (lower image_path) [".png"; ".jpg"; ".jpeg"] = true
          ∧ pil_verify contents = true) as [Hext_in Hverify].
  { unfold valid_image in Hvalid. rewrite Hfile in Hvalid.
    by apply andb_true_iff in Hvalid. }
  pose proof (RGB_hide_fits pil_verify pil_open_rgb pil_save verbose w
                image_path output_path contents pixels text saved
                Hfile Hext_in Hverify Hopen Hwf) as Hhide.
  rewrite Hhide; [|by destruct Hwf as [[<- _] _]|done].
  match goal with |- ∃ w1 w2, (_, ?w) = _ ∧ _ =>
    destruct (RGB_extract_text_run w output_path)
      as (r & w2 & Hrun & _ & Hr); exists w, w2
  end.
  split; [reflexivity|]. split; [apply lookup_insert_eq|].
  unfold valid_image in Hr. cbn [files] in Hr.
  rewrite lookup_insert_eq, Hext in Hr. cbn [andb] in Hr. by subst r.
Qed.

Lemma RGB_embed_accepts_iff (pixels : ndarray) (text : str) :
  wf_rgb pixels →
  (∃ enc, RGB.embed pixels text = Ok (RGB.Written enc))
  ↔ length (string_to_binary (text ++ RGB.delimiter)) ≤ size pixels.
Proof.
  intros Hwf. split.
  - intros [enc Henc].
    destruct (decide (length (string_to_binary (text ++ RGB.delimiter))
                      ≤ size pixels)) as [|Hbig]; [done|].
    destruct Hwf as [_ (height & width & Hshape)].
    rewrite (wf_rgb_size _ _ _ Hshape) in Hbig.
    rewrite (RGB_embed_too_long _ _ _ _ _ Hshape) in Henc by lia.
    discriminate.
  - intros Hfit. eexists. by apply RGB_embed_ok.
Qed.

Lemma RGB_get_image_info_run (w : world blob) (image_path : string) :
  ∃ l,
    RGB.get_image_info pil_verify verbose pil_open image_path w
    = (Ok (if valid_image pil_verify (files w) image_path
           then match files w !! image_path ≫= pil_open with
                | Some img =>
                    <["width" := VInt (im_width img)]>
                    (<["height" := VInt (im_height img)]>
                    (<["total_pixels" := VInt (im_width img * im_height img)]>
                    (<["max_bits" := VInt (im_width img * im_height img * 3)]>
                    (<["max_characters" :=
                         VInt (im_width img * im_height img * 3 / 8)]>
                    (<["format" := match im_format img with
                                   | Some f => VStr f
                                   | None => VNone
                                   end]>
                    (<["mode" := VStr (im_mode img)]> ∅))))))
                | None => {[ "error" := VExn MIo ]}
                end
           else {[ "error" :=
                     VStr (String.append "Invalid image file '"
                             (String.append image_path "'")) ]}),
       World (files w) (stdout w ++ logged verbose [l])).
Proof.
  unfold RGB.get_image_info, try_except, mbind at 1, io_mbind.
  unfold io_bind at 1.
  destruct (RGB_validate_image_run w image_path) as [l ->]. exists l.
  destruct (valid_image pil_verify (files w) image_path); cbn [negb];
    [|reflexivity].
  unfold mbind at 1, io_mbind, io_bind, read_file. cbn [files].
  by destruct (files w !! image_path ≫= pil_open).
Qed.

(** [get_image_info] lets no exception escape and changes no file; the
    dictionary it returns has the key "error" exactly when
    [validate_image] refuses the path or the image cannot be opened. *)
Theorem RGB_get_image_info_error_iff (w : world blob)
    (image_path : string) :
  ∃ info w',
    RGB.get_image_info pil_verify verbose pil_open image_path w
    = (Ok info, w')
    ∧ files w' = files w
    ∧ (info !! "error" = None
       ↔ valid_image pil_verify (files w) image_path = true
         ∧ is_Some (files w !! image_path ≫= pil_open)).
Proof.
  destruct (RGB_get_image_info_run w image_path) as [l Hrun].
  eexists _, _. split; [exact Hrun|]. split; [reflexivity|].
  destruct (valid_image pil_verify (files w) image_path).
  - destruct (files w !! image_path ≫= pil_open) as [img|].
    + split; [eauto|]. intros _. reflexivity.
    + split; [by rewrite lookup_singleton_eq|]. by intros [_ [? ?]].
  - split; [by rewrite lookup_singleton_eq|]. by intros [? _].
Qed.

(** The capacity [get_image_info] reports counts the delimiter in. For a
    valid image whose RGB array has the dimensions the image reports,
    "max_bits" is the number of samples and "max_characters" is
    [max_bits // 8], but a text of code points at most 255 is embedded
    exactly when [len(text) + 9 <= max_characters]: the longest text
    that fits is nine characters shorter than "max_characters". *)
Theorem RGB_image_info_capacity (w : world blob) (image_path : string)
    (contents : blob) (im : pil_image) (pixels : ndarray) :
  files w !! image_path = Some contents →
  valid_image pil_verify (files w) image_path = true →
  pil_open contents = Some im → pil_open_rgb contents = Some pixels →
  wf_rgb pixels → shape pixels = [im_height im; im_width im; 3] →
  ∃ info w',
    RGB.get_image_info pil_verify verbose pil_open image_path w
    = (Ok info, w')
    ∧ info !! "max_bits" = Some (VInt (length (ravel pixels)))
    ∧ info !! "max_characters" = Some (VInt (length (ravel pixels) / 8))
    ∧ ∀ text, single_byte text →
        ((∃ enc, RGB.embed pixels text = Ok (RGB.Written enc))
         ↔ length text + 9 ≤ length (ravel pixels) / 8).
Proof.
  intros Hfile Hvalid Hopen Hrgb Hwf Hshape.
  destruct (RGB_get_image_info_run w image_path) as [l Hrun].
  rewrite Hvalid, Hfile in Hrun. cbn [mbind option_bind] in Hrun.
  rewrite Hopen in Hrun.
  assert (length (ravel pixels) = im_width im * im_height im * 3) as Hlen.
  { destruct Hwf as [[-> _] _]. by apply wf_rgb_size. }
  eexists _, _. split; [exact Hrun|]. rewrite Hlen.
  split; [reflexivity|]. split; [reflexivity|].
  intros text Hsb. rewrite RGB_embed_accepts_iff by done.
  rewrite framed_length by (done || apply RGB_delimiter_single_byte).
  rewrite RGB_delimiter_length. destruct Hwf as [[<- _] _]. rewrite Hlen.
  apply fits_chars.
Qed.

End Files.

Lemma Stag_hide_then_extract_witness :
  let read : ndarray → option ndarray := Some in
  let write : string → ndarray → option ndarray := fun _ a => Some a in
  let img := {| shape := [10; 10; 3];
                ravel := replicate (10 * (10 * (3 * 1))) 255%Z |} in
  let w : world ndarray := World {["carrier.png" := img]} [] in
  ∃ w1 w2,
    Stag.hide_text_in_image read write "carrier.png" (lit "HELLO") "out.png" w
    = (Ok true, w1)
    ∧ Stag.extract_text_from_image read "out.png" w1
      = (Ok (Some (lit "HELLO")), w2).
Proof.
  intros read write img w.
  apply (Stag_hide_then_extract read write w "carrier.png" "out.png"
           img img (lit "HELLO")).
  - apply lookup_singleton_eq.
  - reflexivity.
  - exact (proj1 (white_wf 10 10)).
  - unfold single_byte. repeat constructor.
  - apply Nat.leb_le. vm_compute. reflexivity.
  - reflexivity.
  - intros enc. by exists enc.
Defined.

Lemma RGB_hide_then_extract_witness :
  let verify : ndarray → bool := fun _ => true in
  let read : ndarray → option ndarray := Some in
  let write : string → ndarray → option ndarray := fun _ a => Some a in
  let img := {| shape := [10; 10; 3];
                ravel := replicate (10 * (10 * (3 * 1))) 255%Z |} in
  let w : world ndarray := World {["carrier.png" := img]} [] in
  ∃ w1 w2,
    RGB.hide_text_in_image verify read write true
      "carrier.png" (lit "HELLO") "out.PNG" w = (Ok true, w1)
    ∧ RGB.extract_text_from_image verify read true "out.PNG" w1
      = (Ok (RGB.Text (lit "HELLO")), w2).
Proof.
  intros verify read write img w.
  apply (RGB_hide_then_extract verify read write true w
           "carrier.png" "out.PNG" img img (lit "HELLO")).
  - apply lookup_singleton_eq.
  - reflexivity.
  - reflexivity.
  - exact (white_wf 10 10).
  - unfold single_byte. repeat constructor.
  - discriminate.
  - apply Nat.leb_le. vm_compute. reflexivity.
  - reflexivity.
  - reflexivity.
  - intros enc. by exists enc.
Defined.

Lemma RGB_hidden_but_refused_witness :
  let verify : ndarray → bool := fun _ => true in
  let read : ndarray → option ndarray := Some in
  let write : string → ndarray → option ndarray := fun _ a => Some a in
  let img := {| shape := [10; 10; 3];
                ravel := replicate (10 * (10 * (3 * 1))) 255%Z |} in
  let w : world ndarray := World {["carrier.png" := img]} [] in
  ∃ w1 w2,
    RGB.hide_text_in_image verify read write true
      "carrier.png" (lit "HELLO") "out.bmp" w = (Ok true, w1)
    ∧ files w1 !! "out.bmp"
      = Some {| shape := shape img;
                ravel := overwrite (ravel img)
                           (string_to_binary (lit "HELLO" ++ RGB.delimiter)) |}
    ∧ RGB.extract_text_from_image verify read true "out.bmp" w1
      = (Ok (RGB.InvalidImageFile "out.bmp"), w2).
Proof.
  intros verify read write img w.
  apply (RGB_hidden_but_refused verify read write true w
           "carrier.png" "out.bmp" img _ img (lit "HELLO")).
  - apply lookup_singleton_eq.
  - reflexivity.
  - reflexivity.
  - exact (white_wf 10 10).
  - apply Nat.leb_le. vm_compute. reflexivity.
  - reflexivity.
  - reflexivity.
Defined.

Lemma RGB_image_info_capacity_witness :
  let verify : ndarray → bool := fun _ => true in
  let read : ndarray → option ndarray := Some in
  let info_of (a : ndarray) : option pil_image :=
    Some {| im_width := 10; im_height := 10;
            im_format := Some "PNG"; im_mode := "RGB" |} in
  let img := {| shape := [10; 10; 3];
                ravel := replicate (10 * (10 * (3 * 1))) 255%Z |} in
  let w : world ndarray := World {["carrier.png" := img]} [] in
  ∃ info w',
    RGB.get_image_info verify true info_of "carrier.png" w = (Ok info, w')
    ∧ info !! "max_characters" = Some (VInt 37)
    ∧ (∃ enc, RGB.embed img (lit "0123456789012345678901234567")
              = Ok (RGB.Written enc))
    ∧ RGB.embed img (lit "01234567890123456789012345678")
      = Ok (RGB.TooLong 304 300).
Proof.
  intros verify read info_of img w.
  destruct (RGB_image_info_capacity verify read info_of true w "carrier.png"
              img {| im_width := 10; im_height := 10;
                     im_format := Some "PNG"; im_mode := "RGB" |} img)
    as (info & w' & Hrun & _ & Hchars & Hfits).
  - apply lookup_singleton_eq.
  - reflexivity.
  - reflexivity.
  - reflexivity.
  - exact (white_wf 10 10).
  - reflexivity.
  - exists info, w'. split; [exact Hrun|]. split; [exact Hchars|]. split.
    + apply Hfits; [unfold single_byte; repeat constructor|].
      apply Nat.leb_le. vm_compute. reflexivity.
    + reflexivity.
Defined.

(** ** [hex1.py]: the class and the window that uses it *)

Lemma Hex1_embed_ok (img : ndarray) (code : str) :
  wf_ndarray img →
  length (string_to_binary (code ++ Hex1.delimiter)) ≤ size img →
  Hex1.embed img code
  = Ok {| shape := shape img;
          ravel := overwrite (ravel img)
                     (string_to_binary (code ++ Hex1.delimiter)) |}.
Proof.
  intros [Hsize _] Hfit. unfold Hex1.embed. cbv zeta.
  destruct (Nat.ltb_spec (size img)
              (length (string_to_binary (code ++ Hex1.delimiter))));
    [lia|].
  rewrite bool_decide_eq_true_2
    by (rewrite length_take, length_map; lia).
  reflexivity.
Qed.

Lemma Hex1_extract_framed (img : ndarray) (a : str) (garbage : bits) :
  lsbs (ravel img) = string_to_binary (a ++ Hex1.delimiter) ++ garbage →
  single_byte a →
  find (a ++ Hex1.delimiter) Hex1.delimiter = Z.of_nat (length a) →
  Hex1.extract img = Ok a.
Proof.
  intros Hbits Ha Hfind. unfold Hex1.extract. cbv zeta.
  rewrite binary_to_string_decode. cbn [mbind result_bind].
  rewrite Hbits, decode_string_to_binary.
  2:{ pose proof delimiter_single_byte. unfold single_byte in *.
      by apply Forall_app_2. }
  rewrite <- app_assoc, (find_framed _ _ _ Hfind).
  rewrite bool_decide_eq_true_2 by lia.
  unfold slice. rewrite Nat.sub_0_r, drop_0, Nat2Z.id.
  by rewrite take_app_length.
Qed.

Lemma Hex1_extract_no_delimiter (img : ndarray) :
  no_delimiter Hex1.delimiter (ravel img) →
  Hex1.extract img = Ok Hex1.no_hidden_data.
Proof.
  intros Hno. unfold Hex1.extract. cbv zeta.
  rewrite binary_to_string_decode. cbn [mbind result_bind].
  rewrite find_none; [reflexivity|].
  intros j Hj.
  destruct (starts_with Hex1.delimiter (drop j (decode (lsbs (ravel img)))))
    eqn:E; [exfalso|reflexivity].
  apply starts_with_prefix in E as [r Hr].
  apply (Hno j).
  rewrite (string_to_binary_length Hex1.delimiter)
    by apply delimiter_single_byte.
  rewrite (bits_decode_split (lsbs (ravel img))) at 1.
  assert (length (drop j (decode (lsbs (ravel img))))
          = length Hex1.delimiter + length r) as Hlen
    by (by rewrite Hr, length_app).
  rewrite length_drop in Hlen.
  rewrite slice_string_to_binary by (apply decode_single_byte || lia).
  by rewrite Hr, take_app_length.
Qed.

Lemma Hex1_embed_extract (img : ndarray) (code : str) :
  wf_ndarray img → single_byte code →
  8 * (length code + length Hex1.delimiter) ≤ length (ravel img) →
  find (code ++ Hex1.delimiter) Hex1.delimiter = Z.of_nat (length code) →
  ∃ enc, Hex1.embed img code = Ok enc ∧ Hex1.extract enc = Ok code.
Proof.
  intros Hwf Hsb Hfit Hfind.
  assert (length (string_to_binary (code ++ Hex1.delimiter))
          ≤ length (ravel img)) as Hbits
    by (by rewrite framed_length by (done || apply delimiter_single_byte)).
  eexists. split.
  - apply Hex1_embed_ok; [done|]. destruct Hwf as [<- _]. done.
  - eapply Hex1_extract_framed; [|done|done].
    cbn [ravel]. by rewrite lsbs_overwrite.
Qed.

(** Round trip in [hex1.py]: for a carrier with at least
    [8 * (len(code) + len(delimiter))] samples and a text of code points
    at most 255 that ends where the delimiter first occurs in
    [code + delimiter], [hide_code_in_image] embeds the text and
    [extract_code_from_image] reads it back; a carrier without the
    delimiter gives the no-data text. *)
Theorem Hex1_round_trip (img : ndarray) (code : str) :
  (wf_ndarray img → single_byte code →
   8 * (length code + length Hex1.delimiter) ≤ length (ravel img) →
   find (code ++ Hex1.delimiter) Hex1.delimiter = Z.of_nat (length code) →
   ∃ enc, Hex1.embed img code = Ok enc ∧ Hex1.extract enc = Ok code)
  ∧ (no_delimiter Hex1.delimiter (ravel img) →
     Hex1.extract img = Ok Hex1.no_hidden_data).
Proof.
  split; [apply Hex1_embed_extract|apply Hex1_extract_no_delimiter].
Qed.

Lemma short_carrier_no_delimiter (delimiter : str) (flat : list Z) :
  length flat < length (string_to_binary delimiter) →
  no_delimiter delimiter flat.
Proof.
  intros Hshort k Heq. apply (f_equal length) in Heq.
  unfold slice, lsbs in Heq.
  rewrite length_take, length_drop, length_map in Heq. lia.
Qed.

Lemma Hex1_round_trip_witness :
  let img := {| shape := [10; 10; 3];
                ravel := replicate (10 * (10 * (3 * 1))) 255%Z |} in
  let small := {| shape := [2; 2; 3];
                  ravel := replicate (2 * (2 * (3 * 1))) 255%Z |} in
  (∃ enc, Hex1.embed img (lit "print(1)") = Ok enc
          ∧ Hex1.extract enc = Ok (lit "print(1)"))
  ∧ Hex1.extract small = Ok Hex1.no_hidden_data.
Proof.
  intros img small. split.
  - apply (proj1 (Hex1_round_trip img (lit "print(1)")));
      [exact (proj1 (white_wf 10 10))
      |unfold single_byte; repeat constructor
      |apply Nat.leb_le; vm_compute; reflexivity
      |reflexivity].
  - apply (proj2 (Hex1_round_trip small [])).
    apply short_carrier_no_delimiter. apply Nat.ltb_lt. reflexivity.
Defined.

Section Window.
Context {blob : Type}.
Variable cv2_imread : blob → option ndarray.
Variable photo : blob → option blob.
Variable fs : gmap string blob.

(** What [select_image] leaves in the window, for a file that can be
    shown. If the file cannot be decoded, or its image holds no
    delimiter, the "Execute Code" button is disabled and the text box
    says that no code was found. If the image is the result of hiding a
    code (non-empty, of code points at most 255, ending where the
    delimiter first occurs, fitting its carrier, and not the no-data text
    itself), the button is enabled and the text box and [extracted_code]
    hold exactly that code. *)
Theorem Hex1_select_image_execute (image_path : string)
    (contents img_tk : blob) (g : Hex1.gui blob) :
  image_path ≠ "" → fs !! image_path = Some contents →
  photo contents = Some img_tk →
  let g' := Hex1.select_image cv2_imread photo fs image_path g in
  (cv2_imread contents = None →
   Hex1.execute_button g' = false
   ∧ Hex1.code_text g' = Hex1.no_hidden_code
   ∧ Hex1.extracted_code g' = None)
  ∧ (∀ img, cv2_imread contents = Some img →
       no_delimiter Hex1.delimiter (ravel img) →
       Hex1.execute_button g' = false
       ∧ Hex1.code_text g' = Hex1.no_hidden_code
       ∧ Hex1.extracted_code g' = Some Hex1.no_hidden_data)
  ∧ (∀ carrier enc code,
       cv2_imread contents = Some enc → Hex1.embed carrier code = Ok enc →
       wf_ndarray carrier → single_byte code →
       8 * (length code + length Hex1.delimiter) ≤ length (ravel carrier) →
       find (code ++ Hex1.delimiter) Hex1.delimiter
       = Z.of_nat (length code) →
       code ≠ [] → code ≠ Hex1.no_hidden_data →
       Hex1.execute_button g' = true
       ∧ Hex1.code_text g' = code
       ∧ Hex1.extracted_code g' = Some code).
Proof.
  intros Hpath Hfile Hphoto g'. subst g'.
  unfold Hex1.select_image, Hex1.extract_code_from_image.
  rewrite (proj2 (String.eqb_neq _ _) Hpath), Hfile.
  cbn [mbind option_bind]. rewrite Hphoto.
  split; [|split].
  - intros ->. done.
  - intros img -> Hno. by rewrite Hex1_extract_no_delimiter.
  - intros carrier enc code -> Henc Hwf Hsb Hfit Hfind Hne Hnot.
    destruct (Hex1_embed_extract carrier code Hwf Hsb Hfit Hfind)
      as (enc' & Henc' & Hext).
    rewrite Henc in Henc'. injection Henc' as <-. rewrite Hext.
    destruct code as [|c code]; [done|].
    by rewrite bool_decide_eq_true_2.
Qed.

End Window.

Lemma Hex1_select_image_execute_witness :
  let read : ndarray → option ndarray := Some in
  let show : ndarray → option ndarray := Some in
  let carrier := {| shape := [10; 10; 3];
                    ravel := replicate (10 * (10 * (3 * 1))) 255%Z |} in
  let small := {| shape := [2; 2; 3];
                  ravel := replicate (2 * (2 * (3 * 1))) 255%Z |} in
  let g := Hex1.Gui None [] false Hex1.StatusOther None [] in
  (let fs : gmap string ndarray := {["plain.png" := small]} in
   Hex1.execute_button (Hex1.select_image read show fs "plain.png" g) = false)
  ∧ (∃ enc, Hex1.embed carrier (lit "print(1)") = Ok enc
       ∧ let fs : gmap string ndarray := {["code.png" := enc]} in
         let g' := Hex1.select_image read show fs "code.png" g in
         Hex1.execute_button g' = true
         ∧ Hex1.code_text g' = lit "print(1)").
Proof.
  intros read show carrier small g. split.
  - intros fs.
    destruct (Hex1_select_image_execute read show fs "plain.png"
                small small g) as (_ & Hplain & _);
      [discriminate|apply lookup_singleton_eq|reflexivity|].
    apply (Hplain small eq_refl).
    apply short_carrier_no_delimiter. apply Nat.ltb_lt. reflexivity.
  - destruct (Hex1_embed_extract carrier (lit "print(1)"))
      as (enc & Henc & _);
      [exact (proj1 (white_wf 10 10))
      |unfold single_byte; repeat constructor
      |apply Nat.leb_le; vm_compute; reflexivity
      |reflexivity|].
    exists enc. split; [exact Henc|]. intros fs g'.
    destruct (Hex1_select_image_execute read show fs "code.png" enc enc g)
      as (_ & _ & Hcode);
      [discriminate|apply lookup_singleton_eq|reflexivity|].
    destruct (Hcode carrier enc (lit "print(1)") eq_refl Henc)
      as (Hbutton & Htext & _);
      [exact (proj1 (white_wf 10 10))
      |unfold single_byte; repeat constructor
      |apply Nat.leb_le; vm_compute; reflexivity
      |reflexivity|discriminate|discriminate|].
    by split.
Defined.
